(** * Auditor checks of coroot: replication lag, connections, deployments

    A shallow embedding of [auditor/postgres.go] (checkReplicationLag,
    pgReplicationLag, pgConnections) and of the deployments audit, with the
    properties the specification states about them.

    Go's [float64] is Rocq's primitive binary64 [float]; NaN, infinities and
    signed zeros behave as on the machine.  [a > b] of Go is [(b <? a)%float],
    [math.IsNaN] is [PrimFloat.is_nan]. *)

From stdpp Require Import gmap strings list fin_maps.
From Stdlib Require Import ZArith Floats Lia.

Local Open Scope string_scope.
Local Open Scope Z_scope.

(** ** Go conversions between floats and integers *)

Module Go.

Definition min_int64 : Z := - 2 ^ 63.
Definition max_int64 : Z := 2 ^ 63 - 1.

(** [int64(f)] for a float64 [f]: the fraction is discarded (truncation
    towards zero).  A value that int64 cannot hold (NaN, infinities, out of
    range) gives the "integer indefinite" value of amd64. *)
Definition float64_to_int64 (f : float) : Z :=
  match Prim2SF f with
  | S754_zero _ => 0
  | S754_finite s m e =>
      let a := Z.shiftl (Z.pos m) e in
      let z := if s then - a else a in
      if (min_int64 <=? z) && (z <=? max_int64) then z else min_int64
  | _ => min_int64
  end.

(** binary32 values, by their specification: precision 24, emax 128. *)
Definition float32 : Type := spec_float.

(** [float32(n)] for an int64 [n]: rounding to nearest, ties to even. *)
Definition int64_to_float32 (n : Z) : float32 :=
  binary_normalize 24 128 n 0 false.

End Go.

(** ** package timeseries *)

Module timeseries.

(** Modelled from the spec: the package timeseries is not among the source
    files.  An Instant is an absolute timestamp, a Duration a difference of
    two of them, both whole numbers of seconds. *)
Definition Time : Type := Z.
Definition Duration : Type := Z.

Definition Time_Sub (t other : Time) : Duration := t - other.
Definition Time_Add (t : Time) (d : Duration) : Time := t + d.
Definition Time_IsZero (t : Time) : bool := t =? 0.

(** Modelled from the spec: a TimeSeries is an immutable ordered sequence of
    samples over a fixed range and step; the value NaN means "no data". *)
Record TimeSeries : Type := mkTimeSeries {
  from : Time;
  step : Duration;
  data : list float
}.

(** A [*TimeSeries]; [None] is the nil pointer. *)
Definition TimeSeriesPtr : Type := option TimeSeries.

Definition Sample : Type := (Time * float)%type.

Fixpoint samples_from (t : Time) (d : Duration) (vs : list float) : list Sample :=
  match vs with
  | [] => []
  | v :: vs' => (t, v) :: samples_from (Time_Add t d) d vs'
  end.

(** Modelled from the spec: [ts.Iter()] walks the samples oldest to newest. *)
Definition Iter (ts : TimeSeriesPtr) : list Sample :=
  match ts with
  | None => []
  | Some s => samples_from (from s) (step s) (data s)
  end.

(** Modelled from the spec: a series is empty when it has no sample. *)
Definition IsEmpty (ts : TimeSeriesPtr) : bool :=
  match Iter ts with [] => true | _ => false end.

(** Modelled from the spec: the value of the newest sample, NaN on an empty
    series. *)
Definition Last (ts : TimeSeriesPtr) : float :=
  List.last (List.map snd (Iter ts)) nan.

(** Modelled from the spec: the latest sample whose value is not NaN; the
    zero time and NaN when there is none. *)
Definition LastNotNull (ts : TimeSeriesPtr) : Time * float :=
  fold_left (fun acc (s : Sample) => if is_nan (snd s) then acc else s)
            (Iter ts) (0, nan).

(** The value at the [i]-th instant, NaN outside the series. *)
Definition value_at (ts : TimeSeriesPtr) (i : nat) : float :=
  match ts with
  | None => nan
  | Some s => nth i (data s) nan
  end.

(** Modelled from the spec: sum of the defined inputs, NaN only when none
    is defined. *)
Definition NanSum (sum v : float) : float :=
  if is_nan v then sum
  else if is_nan sum then v
  else (sum + v)%float.

(** Modelled from the spec: an accumulator over its inputs with a binary
    combinator; [Add] appends one input, [Get] combines them pointwise. *)
Record Aggregate : Type := mkAggregate {
  f : float -> float -> float;
  input : list TimeSeriesPtr
}.

Definition NewAggregate (g : float -> float -> float) : Aggregate :=
  {| f := g; input := [] |}.

Definition Aggregate_Add (a : Aggregate) (ts : TimeSeriesPtr) : Aggregate :=
  {| f := f a; input := (input a ++ [ts])%list |}.

Definition Aggregate_at (a : Aggregate) (i : nat) : float :=
  fold_left (fun acc ts => f a acc (value_at ts i)) (input a) nan.

(** The range of the result is that of the first input that has samples;
    without such an input there is no instant to report, and the result is
    the empty (nil) series. *)
Definition Aggregate_Get (a : Aggregate) : TimeSeriesPtr :=
  match List.filter (fun ts => negb (IsEmpty ts)) (input a) with
  | Some s0 :: _ =>
      Some {| from := from s0; step := step s0;
              data := List.map (Aggregate_at a) (seq 0 (length (data s0))) |}
  | _ => None
  end.

Fixpoint zip_with (g : float -> float -> float) (xs ys : list float) : list float :=
  match xs, ys with
  | x :: xs', y :: ys' => g x y :: zip_with g xs' ys'
  | _, _ => []
  end.

(** Modelled from the spec: the pointwise combination of two series that
    share their range; nil when either has no sample. *)
Definition Aggregate2 (x y : TimeSeriesPtr) (g : float -> float -> float) : TimeSeriesPtr :=
  match x, y with
  | Some sx, Some sy =>
      if IsEmpty x || IsEmpty y then None
      else Some {| from := from sx; step := step sx;
                   data := zip_with g (data sx) (data sy) |}
  | _, _ => None
  end.

End timeseries.

Import timeseries.

(** ** package model *)

Module model.

(** Modelled from the spec: the role enumeration {primary, replica,
    unknown}. *)
Inductive ClusterRole : Type :=
| ClusterRoleNone
| ClusterRolePrimary
| ClusterRoleReplica.

Definition ClusterRole_eqb (a b : ClusterRole) : bool :=
  match a, b with
  | ClusterRoleNone, ClusterRoleNone
  | ClusterRolePrimary, ClusterRolePrimary
  | ClusterRoleReplica, ClusterRoleReplica => true
  | _, _ => false
  end.

(** Modelled from the spec: a Check is a recording sink bound to a static
    threshold: a set of violating items (insertion-ordered, one entry per
    name), a running counter, and a last value. *)
Record Check : Type := mkCheck {
  Threshold : float;
  items : list string;
  count : Z;
  value : Go.float32
}.

Definition CreateCheck (threshold : float) : Check :=
  {| Threshold := threshold; items := []; count := 0; value := S754_zero false |}.

(** [AddItem]: set semantics, idempotent per name. *)
Definition AddItem (ch : Check) (name : string) : Check :=
  if bool_decide (name ∈ items ch) then ch
  else {| Threshold := Threshold ch; items := (items ch ++ [name])%list;
          count := count ch; value := value ch |}.

(** [SetValue]: last write wins. *)
Definition SetValue (ch : Check) (v : Go.float32) : Check :=
  {| Threshold := Threshold ch; items := items ch;
     count := count ch; value := v |}.

(** [Inc]: running accumulation. *)
Definition Inc (ch : Check) (delta : Z) : Check :=
  {| Threshold := Threshold ch; items := items ch;
     count := count ch + delta; value := value ch |}.

(** The fields of a table cell that the replication-lag audit writes. *)
Record TableCell : Type := mkTableCell {
  Value : string;
  Unit : string;
  Tags : list string
}.

(** [&model.TableCell{}] *)
Definition emptyTableCell : TableCell :=
  {| Value := ""; Unit := ""; Tags := [] |}.

End model.

Import model.

(** ** auditor/postgres.go: replication lag *)

Section ReplicationLag.

(** [utils.FormatBytes] and [utils.FormatDuration] render numbers for
    display; they are not among the source files and every result below
    holds whatever they print. *)
Variable FormatBytes : float -> string * string.
Variable FormatDuration : Duration -> Z -> string.

(** The state of the scan loop of checkReplicationLag: the variables
    [t], [tPast], [vPast]. *)
Record scanState : Type := mkScan {
  scan_t : Time;
  scan_tPast : Time;
  scan_vPast : float
}.

(** The loop over [primaryLsn.Iter()]:
<<
    for iter.Next() {
      t, vPast = iter.Value()
      if vPast > vCurr { continue }
      if vPast > vCurr-last { break }
      tPast = t
    }
>> *)
Fixpoint scanLoop (vCurr last : float) (iter : list Sample) (st : scanState) : scanState :=
  match iter with
  | [] => st
  | (t, vPast) :: rest =>
      let st1 := {| scan_t := t; scan_tPast := scan_tPast st; scan_vPast := vPast |} in
      if (vCurr <? vPast)%float then scanLoop vCurr last rest st1
      else if (vCurr - last <? vPast)%float then st1
      else scanLoop vCurr last rest
             {| scan_t := t; scan_tPast := t; scan_vPast := vPast |}
  end.

Definition scanInit : scanState :=
  {| scan_t := 0; scan_tPast := 0; scan_vPast := nan |}.

(** [tPast] after the loop. *)
Definition scanPast (primaryLsn : TimeSeriesPtr) (last : float) : Time :=
  let '(_, vCurr) := LastNotNull primaryLsn in
  scan_tPast (scanLoop vCurr last (Iter primaryLsn) scanInit).

(** [lagTime := tCurr.Sub(tPast)] *)
Definition lagTimeOf (primaryLsn : TimeSeriesPtr) (last : float) : Duration :=
  Time_Sub (fst (LastNotNull primaryLsn)) (scanPast primaryLsn last).

(** checkReplicationLag returns the table cell and leaves its verdict on
    the Check, which is threaded through here. *)
Definition checkReplicationLag (instanceName : string)
    (primaryLsn lag : TimeSeriesPtr) (role : ClusterRole) (check : Check)
    : TableCell * Check :=
  let res := emptyTableCell in
  if IsEmpty primaryLsn then (res, check)
  else if negb (ClusterRole_eqb role ClusterRoleReplica) then (res, check)
  else
    let last := Last lag in
    if is_nan last then (res, check)
    else
      let '(tCurr, vCurr) := LastNotNull primaryLsn in
      let st := scanLoop vCurr last (Iter primaryLsn) scanInit in
      let tPast := scan_tPast st in
      let lagTime := Time_Sub tCurr tPast in
      let greaterThanWorldWindow := if Time_IsZero tPast then ">" else "" in
      let check' :=
        if Go.float64_to_int64 (Threshold check) <? lagTime
        then AddItem check instanceName else check in
      let '(v, u) := FormatBytes last in
      let tags :=
        if 0 <? lagTime
        then (Tags res ++
              [String.append greaterThanWorldWindow (FormatDuration lagTime 1)])%list
        else Tags res in
      ({| Value := v; Unit := u; Tags := tags |}, check').

(** pgReplicationLag: the byte lag, floored at zero. *)
Definition lagBytes (primary replay : float) : float :=
  let res := (primary - replay)%float in
  if (res <? 0)%float then 0%float else res.

Definition pgReplicationLag (primaryLsn replayLsn : TimeSeriesPtr) : TimeSeriesPtr :=
  Aggregate2 primaryLsn replayLsn lagBytes.

End ReplicationLag.

(** ** auditor/postgres.go: connections *)

Module postgres.

(** Modelled from the spec: the key of a connection series is a raw state, an
    optional wait-event qualifier and the rest of the connection's identity
    (what [String()] prints for the drill-down charts). *)
Record PgConnectionKey : Type := mkPgConnectionKey {
  State : string;
  WaitEventType : string;
  Identity : string
}.

Record PgSetting : Type := mkPgSetting {
  Samples : TimeSeriesPtr
}.

(** [instance.Postgres] as pgConnections reads it.  [Connections] is the
    Go map in the order one [range] over it happens to visit its entries:
    the keys are pairwise distinct, the order is arbitrary. *)
Record Postgres : Type := mkPostgres {
  Connections : list (PgConnectionKey * TimeSeriesPtr);
  Settings : gmap string PgSetting
}.

Record Instance : Type := mkInstance {
  Name : string;
  Pg : Postgres
}.

Definition pgActiveLockedState : string := "active (locked)".

(** [settings[name].Samples]: a missing key gives the zero PgSetting, whose
    Samples is nil. *)
Definition settingSamples (settings : gmap string PgSetting) (name : string) : TimeSeriesPtr :=
  match settings !! name with
  | Some st => Samples st
  | None => None
  end.

(** The body of the first loop of pgConnections (lines 195-209). *)
Definition connectionsStep (acc : gmap string Aggregate * float)
    (kv : PgConnectionKey * TimeSeriesPtr) : gmap string Aggregate * float :=
  let '(connectionByState, total) := acc in
  let '(k, v) := kv in
  let last := Last v in
  let total := if negb (is_nan last) then (total + last)%float else total in
  let state :=
    if String.eqb (State k) "active" && String.eqb (WaitEventType k) "Lock"
    then pgActiveLockedState else State k in
  let byState :=
    match connectionByState !! state with
    | Some a => a
    | None => NewAggregate NanSum
    end in
  (<[state := Aggregate_Add byState v]> connectionByState, total).

Definition connectionsLoop (conns : list (PgConnectionKey * TimeSeriesPtr))
  : gmap string Aggregate * float :=
  fold_left connectionsStep conns (∅, 0%float).

Definition reservedSettings : list string :=
  ["superuser_reserved_connections"; "rds.rds_superuser_reserved_connections"].

(** The body of the loop over the reserved-connections settings
    (lines 212-218). *)
Definition reservedStep (settings : gmap string PgSetting)
    (acc : gmap string Aggregate * float) (setting : string)
  : gmap string Aggregate * float :=
  let '(connectionByState, total) := acc in
  let v := settingSamples settings setting in
  let connectionByState :=
    alter (fun a => Aggregate_Add a v) "reserved" connectionByState in
  let last := Last v in
  let total := if negb (is_nan last) then (total + last)%float else total in
  (connectionByState, total).

(** What pgConnections leaves behind: the buckets, the total of the latest
    values, the Check, and the series handed to the stacked chart
    ([chart.AddSeries(state, v.Get(), color)] for every bucket).  The two
    top-5 drill-down charts that follow are display only. *)
Record pgConnectionsResult : Type := mkPgConnectionsResult {
  connectionByState : gmap string Aggregate;
  total : float;
  connectionsCheck : Check;
  chart : gmap string TimeSeriesPtr
}.

Definition pgConnections (instance : Instance) (check : Check) : pgConnectionsResult :=
  let '(byState, total) := connectionsLoop (Connections (Pg instance)) in
  let byState := <["reserved" := NewAggregate NanSum]> byState in
  let '(byState, total) :=
    fold_left (reservedStep (Settings (Pg instance))) reservedSettings (byState, total) in
  let max := Last (settingSamples (Settings (Pg instance)) "max_connections") in
  let check' :=
    if (0 <? max)%float && (0 <? total)%float then
      if (Threshold check <? total / max * 100)%float
      then AddItem check (Name instance) else check
    else check in
  {| connectionByState := byState; total := total; connectionsCheck := check';
     chart := Aggregate_Get <$> byState |}.

End postgres.

Import postgres.

(** ** The deployments audit *)

Module deployment.

Inductive ApplicationDeploymentState : Type :=
| ApplicationDeploymentStateInProgress
| ApplicationDeploymentStateStuck
| ApplicationDeploymentStateCancelled
| ApplicationDeploymentStateDeployed
| ApplicationDeploymentStateSummary.

Record ApplicationDeploymentSummary : Type := mkSummary {
  Report : string;
  Ok : bool;
  SummaryMessage : string;
  SummaryTime : Time
}.

Record ApplicationDeployment : Type := mkDeployment {
  DeploymentName : string;
  StartedAt : Time
}.

(** One entry of [model.CalcApplicationDeploymentStatuses]; that function
    classifies the deployments outside this audit, which only reads its
    result. *)
Record ApplicationDeploymentStatus : Type := mkDeploymentStatus {
  Deployment : ApplicationDeployment;
  DeploymentState : ApplicationDeploymentState;
  Message : string;
  Summary : list ApplicationDeploymentSummary;
  Lifetime : Duration
}.

(** The summary cell of a table row: a stub text or a list of summaries. *)
Record SummaryCell : Type := mkSummaryCell {
  Stub : string;
  DeploymentSummaries : list ApplicationDeploymentSummary
}.

Definition NewSummaryCell : SummaryCell :=
  {| Stub := ""; DeploymentSummaries := [] |}.

Definition SetStub (c : SummaryCell) (text : string) : SummaryCell :=
  {| Stub := text; DeploymentSummaries := DeploymentSummaries c |}.

Definition AuditReportInstances : string := "Instances".

Section Deployments.

Variable FormatDuration : Duration -> Z -> string.
Variable ApplicationDeploymentMinLifetime : Duration.

(** The state the loop of [deployments] updates: the DeploymentStatus check
    and the rows added to the table (each row by the deployment it shows
    and its summary cell; the version and lifetime cells only format
    fields of the deployment). *)
Record auditState : Type := mkAuditState {
  deploymentStatusCheck : Check;
  rows : list (ApplicationDeployment * SummaryCell)
}.

(** One iteration of the loop, at index [i] of [statuses] (lines 20-54). *)
Definition deploymentsStep (now : Time) (statuses : list ApplicationDeploymentStatus)
    (i : nat) (ds : ApplicationDeploymentStatus) (st : auditState) : auditState :=
  let summary := NewSummaryCell in
  let '(check, summary) :=
    match DeploymentState ds with
    | ApplicationDeploymentStateSummary =>
        if (0 <? Z.of_nat (length (Summary ds)))
        then (deploymentStatusCheck st,
              {| Stub := Stub summary; DeploymentSummaries := Summary ds |})
        else (deploymentStatusCheck st, SetStub summary "No notable changes")
    | ApplicationDeploymentStateDeployed =>
        if (Z.of_nat i =? Z.of_nat (length statuses) - 1)
        then (deploymentStatusCheck st, SetStub summary "Collecting data...")
        else (deploymentStatusCheck st,
              SetStub summary
                (String.append "Not enough data due to the lifetime < "
                   (FormatDuration ApplicationDeploymentMinLifetime 1)))
    | ApplicationDeploymentStateStuck =>
        (SetValue (deploymentStatusCheck st)
           (Go.int64_to_float32 (Time_Sub now (StartedAt (Deployment ds)))),
         {| Stub := Stub summary;
            DeploymentSummaries :=
              (DeploymentSummaries summary ++
               [ {| Report := AuditReportInstances; Ok := false;
                    SummaryMessage := Message ds;
                    SummaryTime := StartedAt (Deployment ds) |} ])%list |})
    | ApplicationDeploymentStateInProgress
    | ApplicationDeploymentStateCancelled =>
        (deploymentStatusCheck st, SetStub summary (Message ds))
    end in
  {| deploymentStatusCheck := check;
     rows := (rows st ++ [(Deployment ds, summary)])%list |}.

(** [for i := n-1; i >= 0; i--]: the iterations at indices [n-1] down
    to [0]. *)
Fixpoint deploymentsLoop (now : Time) (statuses : list ApplicationDeploymentStatus)
    (n : nat) (st : auditState) : auditState :=
  match n with
  | O => st
  | S i =>
      match statuses !! i with
      | Some ds => deploymentsLoop now statuses i (deploymentsStep now statuses i ds st)
      | None => deploymentsLoop now statuses i st
      end
  end.

(** [deployments]: nothing is reported for an application without
    deployments; otherwise the check is created and the statuses are walked
    from the last to the first. *)
Definition deployments (appDeployments : list ApplicationDeployment)
    (statuses : list ApplicationDeploymentStatus) (threshold : float) (now : Time)
  : option auditState :=
  if (Z.of_nat (length appDeployments) =? 0) then None
  else Some (deploymentsLoop now statuses (length statuses)
               {| deploymentStatusCheck := CreateCheck threshold; rows := [] |}).

End Deployments.

End deployment.

Import deployment.

(** ** auditor/postgres.go: the series handed to the top-5 charts *)

Module charts.

(** The key of a per-query series: the query text and the rest of the key
    (database, user), as far as the audit reads it. *)
Record PgQueryKey : Type := mkPgQueryKey {
  Query : string;
  QueryIdentity : string
}.

Record PgQueryStat : Type := mkPgQueryStat {
  TotalTime : TimeSeriesPtr;
  IoTime : TimeSeriesPtr
}.

Inductive LogLevel : Type :=
| LogLevelUnknown
| LogLevelDebug
| LogLevelInfo
| LogLevelWarning
| LogLevelError
| LogLevelCritical.

Definition LogLevel_eqb (a b : LogLevel) : bool :=
  match a, b with
  | LogLevelUnknown, LogLevelUnknown
  | LogLevelDebug, LogLevelDebug
  | LogLevelInfo, LogLevelInfo
  | LogLevelWarning, LogLevelWarning
  | LogLevelError, LogLevelError
  | LogLevelCritical, LogLevelCritical => true
  | _, _ => false
  end.

Record LogPattern : Type := mkLogPattern {
  Level : LogLevel;
  PatternSample : string;
  Sum : TimeSeriesPtr
}.

Section Charts.

(** [k.String()] on a connection key and on a query key: the label of a
    series in a drill-down chart. *)
Variable ConnectionKeyString : PgConnectionKey -> string.
Variable QueryKeyString : PgQueryKey -> string.

(** [pgLogErrRegexp.FindStringSubmatch]: the whole match and the two groups
    of [.*(ERROR|FATAL|PANIC)\s*:\s*(.+)], or no strings without a match. *)
Variable FindStringSubmatch : string -> list string.

(** The body of the second loop over the connections in pgConnections
    (lines 237-244): the two maps the drill-down charts are built from. *)
Definition drilldownStep
    (acc : gmap string TimeSeriesPtr * gmap string TimeSeriesPtr)
    (kv : PgConnectionKey * TimeSeriesPtr)
  : gmap string TimeSeriesPtr * gmap string TimeSeriesPtr :=
  let '(idleInTransaction, locked) := acc in
  let '(k, v) := kv in
  if String.eqb (State k) "idle in transaction"
  then (<[ConnectionKeyString k := v]> idleInTransaction, locked)
  else if String.eqb (State k) "active" && String.eqb (WaitEventType k) "Lock"
  then (idleInTransaction, <[ConnectionKeyString k := v]> locked)
  else (idleInTransaction, locked).

Definition pgConnectionsDrilldown (instance : Instance)
  : gmap string TimeSeriesPtr * gmap string TimeSeriesPtr :=
  fold_left drilldownStep (Connections (Pg instance)) (∅, ∅).

(** pgLocks: the awaiting-queries series by the text of the blocking query,
    as handed to [timeseries.Top]. *)
Definition pgLocks (awaitingQueriesByLockingQuery : list (PgQueryKey * TimeSeriesPtr))
  : gmap string TimeSeriesPtr :=
  fold_left (fun blockingQueries kv => <[Query (fst kv) := snd kv]> blockingQueries)
            awaitingQueriesByLockingQuery ∅.

(** pgQueries: the total-time and the I/O-time series by query label. *)
Definition pgQueriesStep
    (acc : gmap string TimeSeriesPtr * gmap string TimeSeriesPtr)
    (kv : PgQueryKey * PgQueryStat)
  : gmap string TimeSeriesPtr * gmap string TimeSeriesPtr :=
  let '(totalTime, ioTime) := acc in
  let '(k, stat) := kv in
  let q := QueryKeyString k in
  (<[q := TotalTime stat]> totalTime, <[q := IoTime stat]> ioTime).

Definition pgQueries (perQuery : list (PgQueryKey * PgQueryStat))
  : gmap string TimeSeriesPtr * gmap string TimeSeriesPtr :=
  fold_left pgQueriesStep perQuery (∅, ∅).

(** errorsByPattern (lines 122-135). *)
Definition errorsByPatternStep (res : gmap string TimeSeriesPtr) (p : LogPattern)
  : gmap string TimeSeriesPtr :=
  if negb (LogLevel_eqb (Level p) LogLevelError)
     && negb (LogLevel_eqb (Level p) LogLevelCritical)
  then res
  else
    match FindStringSubmatch (PatternSample p) with
    | [_; g1; g2] => <[String.append (String.append g1 ": ") g2 := Sum p]> res
    | _ => <[PatternSample p := Sum p]> res
    end.

Definition errorsByPattern (logPatterns : list LogPattern) : gmap string TimeSeriesPtr :=
  fold_left errorsByPatternStep logPatterns ∅.

(** sumQueries: the NanSum of the per-database series. *)
Definition sumQueries (byDB : list (string * TimeSeriesPtr)) : TimeSeriesPtr :=
  Aggregate_Get
    (fold_left (fun total kv => Aggregate_Add total (snd kv)) byDB (NewAggregate NanSum)).

End Charts.

End charts.

Import charts.

(** ** auditor/postgres.go: the audit itself *)

Module audit.

(** Modelled from the spec: the maximum of the defined inputs, NaN only
    when none is defined. *)
Definition Max (max v : float) : float :=
  if is_nan v then max
  else if is_nan max then v
  else if (max <? v)%float then v else max.

(** Modelled from the spec: a series reduced to a scalar with a NaN-aware
    combinator, NaN for a series without samples. *)
Definition Reduce (g : float -> float -> float) (ts : TimeSeriesPtr) : float :=
  fold_left g (List.map snd (Iter ts)) nan.

(** [instance.Postgres] as the audit reads it; [Up] is what [IsUp()]
    returns, [Stats] holds the connections and the settings. *)
Record PostgresInfo : Type := mkPostgresInfo {
  WalCurrentLsn : TimeSeriesPtr;
  WalReplayLsn : TimeSeriesPtr;
  Avg : TimeSeriesPtr;
  Up : bool;
  Stats : Postgres
}.

(** An instance of the application; [Obsolete] and [RoleLast] are what
    [IsObsolete()] and [ClusterRoleLast()] return, [LogMessagesByLevel] is
    the Go map read with nil for a missing level. *)
Record AppInstance : Type := mkAppInstance {
  InstanceName : string;
  InstancePostgres : option PostgresInfo;
  LogMessagesByLevel : LogLevel -> TimeSeriesPtr;
  Obsolete : bool;
  RoleLast : ClusterRole
}.

(** The five checks of the Postgres report and the replication-lag cells
    of the instance table, by instance name. *)
Record postgresReport : Type := mkPostgresReport {
  availability : Check;
  latency : Check;
  errors : Check;
  replication : Check;
  connections : Check;
  lagCells : list (string * TableCell)
}.

(** The first loop (lines 38-43): the primary position is the maximum over
    the instances that report one. *)
Definition primaryLsnOf (instances : list AppInstance) : Aggregate :=
  fold_left
    (fun primaryLsn i =>
       match InstancePostgres i with
       | Some pg =>
           match WalCurrentLsn pg with
           | Some _ => Aggregate_Add primaryLsn (WalCurrentLsn pg)
           | None => primaryLsn
           end
       | None => primaryLsn
       end)
    instances (NewAggregate Max).

Section Audit.

Variable FormatBytes : float -> string * string.
Variable FormatDuration : Duration -> Z -> string.

(** One iteration of the second loop (lines 45-119), for what it leaves on
    the checks and in the replication-lag column. *)
Definition postgresStep (primaryLsn : Aggregate) (r : postgresReport) (i : AppInstance)
  : postgresReport :=
  match InstancePostgres i with
  | None => r
  | Some pg =>
      let latencyCheck :=
        if (Threshold (latency r) <? Last (Avg pg))%float
        then AddItem (latency r) (InstanceName i) else latency r in
      let errorSeries :=
        Aggregate_Get
          (Aggregate_Add
             (Aggregate_Add (NewAggregate NanSum) (LogMessagesByLevel i LogLevelError))
             (LogMessagesByLevel i LogLevelCritical)) in
      let connectionsCheck' :=
        connectionsCheck
          (pgConnections {| Name := InstanceName i; Pg := Stats pg |} (connections r)) in
      let primaryLsnTs := Aggregate_Get primaryLsn in
      let lag := pgReplicationLag primaryLsnTs (WalReplayLsn pg) in
      if Obsolete i then
        {| availability := availability r; latency := latencyCheck;
           errors := errors r; replication := replication r;
           connections := connectionsCheck'; lagCells := lagCells r |}
      else
        let role := RoleLast i in
        let availabilityCheck :=
          if negb (Up pg) then AddItem (availability r) (InstanceName i)
          else availability r in
        let total := Reduce NanSum errorSeries in
        let errorsCheck :=
          if negb (is_nan total)
          then Inc (errors r) (Go.float64_to_int64 total) else errors r in
        let '(lagCell, replicationCheck) :=
          checkReplicationLag FormatBytes FormatDuration (InstanceName i)
            primaryLsnTs lag role (replication r) in
        {| availability := availabilityCheck; latency := latencyCheck;
           errors := errorsCheck; replication := replicationCheck;
           connections := connectionsCheck';
           lagCells := (lagCells r ++ [(InstanceName i, lagCell)])%list |}
  end.

(** The thresholds the check catalog gives the five checks. *)
Record postgresThresholds : Type := mkPostgresThresholds {
  availabilityThreshold : float;
  latencyThreshold : float;
  errorsThreshold : float;
  replicationThreshold : float;
  connectionsThreshold : float
}.

(** The report as [postgres()] sets it up: five fresh checks. *)
Definition newPostgresReport (th : postgresThresholds) : postgresReport :=
  {| availability := CreateCheck (availabilityThreshold th);
     latency := CreateCheck (latencyThreshold th);
     errors := CreateCheck (errorsThreshold th);
     replication := CreateCheck (replicationThreshold th);
     connections := CreateCheck (connectionsThreshold th);
     lagCells := [] |}.

(** [postgres()]: no report for an application that is not Postgres;
    otherwise the five checks are created and the instances are walked. *)
Definition postgres (isPostgres : bool) (instances : list AppInstance)
    (th : postgresThresholds) : option postgresReport :=
  if negb isPostgres then None
  else Some (fold_left (postgresStep (primaryLsnOf instances)) instances
               (newPostgresReport th)).

End Audit.

End audit.

Import audit.

(** ** Notions the properties are stated with *)

(** A sample the scan skips: its value exceeds [vCurr]. *)
Definition skipped (vCurr : float) (s : Sample) : bool :=
  (vCurr <? snd s)%float.

(** A sample at which the scan stops: its value exceeds [vCurr - last]. *)
Definition beyond (vCurr last : float) (s : Sample) : bool :=
  (vCurr - last <? snd s)%float.

Fixpoint takeWhile {A : Type} (p : A -> bool) (l : list A) : list A :=
  match l with
  | [] => []
  | x :: l' => if p x then x :: takeWhile p l' else []
  end.

(** The samples the scan assigns to [tPast], oldest first: of the samples
    that are not skipped, those before the first one that is [beyond]. *)
Definition tracked (vCurr last : float) (iter : list Sample) : list Sample :=
  takeWhile (fun s => negb (beyond vCurr last s))
            (List.filter (fun s => negb (skipped vCurr s)) iter).

(** The time of the newest sample of a list, [d] when it is empty. *)
Definition lastTime (l : list Sample) (d : Time) : Time :=
  List.last (List.map fst l) d.

(** The rule as the specification words it: of the samples that are not
    skipped, track those with [v >= vCurr - last] and stop at the first one
    with [v < vCurr - last]. *)
Definition tracked_as_worded (vCurr last : float) (iter : list Sample) : list Sample :=
  takeWhile (fun s => (vCurr - last <=? snd s)%float)
            (List.filter (fun s => negb (skipped vCurr s)) iter).

(** The three conditions under which checkReplicationLag gives no result. *)
Definition noResult (primaryLsn lag : TimeSeriesPtr) (role : ClusterRole) : bool :=
  IsEmpty primaryLsn || negb (ClusterRole_eqb role ClusterRoleReplica) || is_nan (Last lag).

(** The prefix of the time tag: ">" marks a lower bound. *)
Definition tagPrefix (tPast : Time) : string :=
  if Time_IsZero tPast then ">" else "".

(** The canonical bucket of a connection key. *)
Definition canonicalState (k : PgConnectionKey) : string :=
  if String.eqb (State k) "active" && String.eqb (WaitEventType k) "Lock"
  then pgActiveLockedState else State k.

(** The connections that land in bucket [b], in the order they are visited. *)
Definition contributors (conns : list (PgConnectionKey * TimeSeriesPtr)) (b : string)
  : list (PgConnectionKey * TimeSeriesPtr) :=
  List.filter (fun kv => String.eqb (canonicalState (fst kv)) b) conns.

(** The bucket [b] as the first loop of pgConnections builds it: absent when
    nothing lands in it, else a NanSum aggregate over the contributors. *)
Definition bucketOf (conns : list (PgConnectionKey * TimeSeriesPtr)) (b : string)
  : option Aggregate :=
  match contributors conns b with
  | [] => None
  | l => Some {| f := NanSum; input := List.map snd l |}
  end.

(** [total] after a series' latest value is added, when it is not NaN. *)
Definition addLast (total : float) (v : TimeSeriesPtr) : float :=
  if negb (is_nan (Last v)) then (total + Last v)%float else total.

(** The sum of the latest values over the connections and the two
    reserved-connections settings. *)
Definition totalOf (instance : Instance) : float :=
  let settings := Settings (Pg instance) in
  addLast
    (addLast (fold_left (fun t kv => addLast t (snd kv)) (Connections (Pg instance)) 0%float)
       (settingSamples settings "superuser_reserved_connections"))
    (settingSamples settings "rds.rds_superuser_reserved_connections").

(** A deployment status whose state is Stuck. *)
Definition isStuck (ds : ApplicationDeploymentStatus) : bool :=
  match DeploymentState ds with
  | ApplicationDeploymentStateStuck => true
  | _ => false
  end.

(** What a Stuck deployment writes to the check: the time elapsed since
    it started. *)
Definition stuckFor (now : Time) (ds : ApplicationDeploymentStatus) : Go.float32 :=
  Go.int64_to_float32 (Time_Sub now (StartedAt (Deployment ds))).

(** The sample value at the [i]-th instant of a series, when it has one. *)
Definition sample_value (ts : TimeSeriesPtr) (i : nat) : option float :=
  match ts with
  | None => None
  | Some s => data s !! i
  end.

(** The values of a series, oldest first; none for the nil series. *)
Definition valuesOf (ts : TimeSeriesPtr) : list float :=
  match ts with
  | None => []
  | Some s => data s
  end.

(** A log pattern of level error or critical. *)
Definition isErrorLevel (p : LogPattern) : bool :=
  LogLevel_eqb (Level p) LogLevelError || LogLevel_eqb (Level p) LogLevelCritical.

(** The label errorsByPattern files a pattern under: "KIND: message" when
    the expression matches with its two groups, the sample itself
    otherwise. *)
Definition errorKey (FindStringSubmatch : string -> list string) (p : LogPattern) : string :=
  match FindStringSubmatch (PatternSample p) with
  | [_; g1; g2] => String.append (String.append g1 ": ") g2
  | _ => PatternSample p
  end.

(** A connection waiting for a lock: raw state "active", wait event "Lock". *)
Definition isLockWaiting (k : PgConnectionKey) : bool :=
  String.eqb (State k) "active" && String.eqb (WaitEventType k) "Lock".

(** The two maps of pgQueries, each as a loop of its own. *)
Definition totalTimeMap (label : PgQueryKey -> string)
    (perQuery : list (PgQueryKey * PgQueryStat)) : gmap string TimeSeriesPtr :=
  fold_left (fun m kv => <[label (fst kv) := TotalTime (snd kv)]> m) perQuery ∅.

Definition ioTimeMap (label : PgQueryKey -> string)
    (perQuery : list (PgQueryKey * PgQueryStat)) : gmap string TimeSeriesPtr :=
  fold_left (fun m kv => <[label (fst kv) := IoTime (snd kv)]> m) perQuery ∅.

(** The two drill-down maps of pgConnections, each as a loop of its own. *)
Definition idleMap (label : PgConnectionKey -> string)
    (conns : list (PgConnectionKey * TimeSeriesPtr)) : gmap string TimeSeriesPtr :=
  fold_left (fun m kv =>
               if String.eqb (State (fst kv)) "idle in transaction"
               then <[label (fst kv) := snd kv]> m else m) conns ∅.

Definition lockedMap (label : PgConnectionKey -> string)
    (conns : list (PgConnectionKey * TimeSeriesPtr)) : gmap string TimeSeriesPtr :=
  fold_left (fun m kv =>
               if negb (String.eqb (State (fst kv)) "idle in transaction")
                  && isLockWaiting (fst kv)
               then <[label (fst kv) := snd kv]> m else m) conns ∅.

(** What the summary cell [c] of the row for the status [ds] at index [i]
    of [n] statuses shows: never a stub and summaries at once; for a Stuck
    deployment one failed summary with its message, timed at its start; for
    a Deployed one "Collecting data..." exactly when it is the newest. *)
Definition rowShows (n i : nat) (ds : ApplicationDeploymentStatus) (c : SummaryCell) : Prop :=
  (Stub c = "" \/ DeploymentSummaries c = [])
  /\ (DeploymentState ds = ApplicationDeploymentStateStuck ->
      Stub c = "" /\
      DeploymentSummaries c =
        [ {| Report := AuditReportInstances; Ok := false;
             SummaryMessage := Message ds;
             SummaryTime := StartedAt (Deployment ds) |} ])
  /\ (DeploymentState ds = ApplicationDeploymentStateDeployed ->
      DeploymentSummaries c = [] /\
      (Stub c = "Collecting data..." <-> S i = n)).

(** The errors an instance adds to the errors check: the truncated total of
    its error and critical log messages, when it has Postgres data, is not
    obsolete and the total is defined. *)
Definition errorsCounted (i : AppInstance) : Z :=
  match InstancePostgres i with
  | None => 0
  | Some _ =>
      if Obsolete i then 0
      else
        let total :=
          Reduce NanSum
            (Aggregate_Get
               (Aggregate_Add
                  (Aggregate_Add (NewAggregate NanSum) (LogMessagesByLevel i LogLevelError))
                  (LogMessagesByLevel i LogLevelCritical))) in
        if is_nan total then 0 else Go.float64_to_int64 total
  end.


(** ** Sample inputs *)

Definition lsn_primary_example : TimeSeriesPtr :=
  Some {| from := 1000; step := 15; data := [100; 200; 300; 400]%float |}.
Definition lsn_replay_example : TimeSeriesPtr :=
  Some {| from := 1000; step := 15; data := [100; 250; 260; 100]%float |}.

(** Scenario 1 of the specification: the position grows by 100 per step
    for ten steps. *)
Definition lsn_scenario1 : TimeSeriesPtr :=
  Some {| from := 1000; step := 15;
          data := [100; 200; 300; 400; 500; 600; 700; 800; 900; 1000]%float |}.

(** A position series whose first sample is missing. *)
Definition lsn_with_gap : TimeSeriesPtr :=
  Some {| from := 1000; step := 15; data := [nan; 10]%float |}.

(** A position series that starts at the zero time. *)
Definition lsn_from_zero_time : TimeSeriesPtr :=
  Some {| from := 0; step := 15; data := [5; 10]%float |}.

(** Every retained sample is already past the replica's position. *)
Definition lsn_short_history : TimeSeriesPtr :=
  Some {| from := 1000; step := 15; data := [900; 950; 1000]%float |}.

(** A byte-lag series whose latest value is [x]. *)
Definition lag_of (x : float) : TimeSeriesPtr :=
  Some {| from := 1000; step := 15; data := [x] |}.

Definition bytes_example (x : float) : string * string := ("1", "B").
Definition duration_example (d : Duration) (precision : Z) : string := "1m".

(** A series with the single value [x]. *)
Definition one_sample (x : float) : TimeSeriesPtr :=
  Some {| from := 1000; step := 15; data := [x] |}.

Definition key (state waitEventType identity : string) : PgConnectionKey :=
  {| State := state; WaitEventType := waitEventType; Identity := identity |}.

(** Scenario 3 of the specification: the total is 95 and max is 100. *)
Definition instance_scenario3 : Instance :=
  {| Name := "pg-1";
     Pg := {| Connections :=
                [ (key "active" "" "db1", one_sample 60);
                  (key "active" "Lock" "db1", one_sample 20);
                  (key "idle" "" "db1", one_sample 10) ];
              Settings :=
                <["max_connections" := mkPgSetting (one_sample 100)]>
                  (<["superuser_reserved_connections" := mkPgSetting (one_sample 5)]> ∅) |} |}.

(** Both reserved-connections settings are present. *)
Definition instance_two_reserved : Instance :=
  {| Name := "pg-2";
     Pg := {| Connections := [ (key "idle" "" "db1", one_sample 10) ];
              Settings :=
                <["superuser_reserved_connections" := mkPgSetting (one_sample 3)]>
                  (<["rds.rds_superuser_reserved_connections" := mkPgSetting (one_sample 2)]> ∅) |} |}.

(** No setting is known. *)
Definition instance_no_settings : Instance :=
  {| Name := "pg-3";
     Pg := {| Connections := [ (key "idle" "" "db1", one_sample 10) ];
              Settings := ∅ |} |}.


Definition status_example (name : string) (startedAt : Time)
    (state : ApplicationDeploymentState) : ApplicationDeploymentStatus :=
  {| Deployment := {| DeploymentName := name; StartedAt := startedAt |};
     DeploymentState := state; Message := "";
     Summary := []; Lifetime := 60 |}.

(** Four deployments, the second and the fourth of them stuck. *)
Definition statuses_example : list ApplicationDeploymentStatus :=
  [ status_example "v1" 100 ApplicationDeploymentStateSummary;
    status_example "v2" 200 ApplicationDeploymentStateStuck;
    status_example "v3" 300 ApplicationDeploymentStateDeployed;
    status_example "v4" 400 ApplicationDeploymentStateStuck ].

(** The replica has no replayed position at the newest instant. *)
Definition lsn_replay_unknown : TimeSeriesPtr :=
  Some {| from := 1000; step := 15;
          data := [100; 200; 300; 400; 500; 600; 700; 800; 900; nan]%float |}.

(** The replica has replayed up to position 500. *)
Definition lsn_replay_behind : TimeSeriesPtr :=
  Some {| from := 1000; step := 15;
          data := [100; 200; 300; 400; 500; 500; 500; 500; 500; 500]%float |}.

Definition no_logs (level : LogLevel) : TimeSeriesPtr := None.

Definition postgres_info (current replay : TimeSeriesPtr) (up : bool) : PostgresInfo :=
  {| WalCurrentLsn := current; WalReplayLsn := replay; Avg := one_sample 0;
     Up := up; Stats := {| Connections := []; Settings := ∅ |} |}.

(** A primary, a replica that lags behind it, an obsolete instance that is
    down, and an instance without Postgres data. *)
Definition app_example : list AppInstance :=
  [ {| InstanceName := "pg-0";
       InstancePostgres := Some (postgres_info lsn_scenario1 None true);
       LogMessagesByLevel := no_logs; Obsolete := false;
       RoleLast := ClusterRolePrimary |};
    {| InstanceName := "pg-1";
       InstancePostgres := Some (postgres_info None lsn_replay_behind false);
       LogMessagesByLevel := no_logs; Obsolete := false;
       RoleLast := ClusterRoleReplica |};
    {| InstanceName := "pg-old";
       InstancePostgres := Some (postgres_info None None false);
       LogMessagesByLevel := no_logs; Obsolete := true;
       RoleLast := ClusterRoleReplica |};
    {| InstanceName := "sidecar";
       InstancePostgres := None;
       LogMessagesByLevel := no_logs; Obsolete := false;
       RoleLast := ClusterRoleNone |} ].

Definition thresholds_example : postgresThresholds :=
  {| availabilityThreshold := 0; latencyThreshold := 0.125; errorsThreshold := 0;
     replicationThreshold := 30; connectionsThreshold := 90 |}.

(** A matcher that knows one sample, and two log patterns. *)
Definition matcher_example (sample : string) : list string :=
  if String.eqb sample "db ERROR: deadlock detected"
  then [sample; "ERROR"; "deadlock detected"] else [].

Definition pattern_deadlock : LogPattern :=
  {| Level := LogLevelError; PatternSample := "db ERROR: deadlock detected";
     Sum := one_sample 3 |}.

Definition patterns_example : list LogPattern :=
  [ pattern_deadlock;
    {| Level := LogLevelWarning; PatternSample := "slow query"; Sum := one_sample 9 |} ].

(** ** Facts about binary64 comparisons *)

Module F64.

Lemma SFcompare_swap (a b : spec_float) :
  SFcompare b a = option_map CompOpp (SFcompare a b).
Proof.
  destruct a as [sa|sa| |sa ma ea], b as [sb|sb| |sb mb eb]; simpl;
    try destruct sa; try destruct sb; try reflexivity.
  - rewrite (Z.compare_antisym ea eb).
    destruct (ea ?= eb)%Z; simpl; try reflexivity.
    pose proof (Pos.compare_cont_antisym ma mb Eq) as H; simpl in H.
    rewrite <- H. now destruct (Pos.compare_cont Eq ma mb).
  - rewrite (Z.compare_antisym ea eb).
    destruct (ea ?= eb)%Z; simpl; try reflexivity.
    pose proof (Pos.compare_cont_antisym ma mb Eq) as H; simpl in H.
    now rewrite <- H.
Qed.

Lemma SFcompare_None (a b : spec_float) :
  SFcompare a b = None -> a = S754_nan \/ b = S754_nan.
Proof.
  destruct a as [sa|sa| |sa ma ea], b as [sb|sb| |sb mb eb]; simpl;
    intros H; try discriminate H; auto.
Qed.

Lemma is_nan_spec (x : float) : is_nan x = true <-> Prim2SF x = S754_nan.
Proof.
  unfold is_nan. rewrite eqb_spec. unfold SFeqb.
  split.
  - destruct (SFcompare (Prim2SF x) (Prim2SF x)) as [c|] eqn:E.
    + pose proof (SFcompare_swap (Prim2SF x) (Prim2SF x)) as Hs.
      rewrite E in Hs. simpl in Hs.
      destruct c; try discriminate Hs; discriminate.
    + intros _. now destruct (SFcompare_None _ _ E).
  - intros ->. reflexivity.
Qed.

(** Unordered operands compare false. *)
Lemma ltb_nan_l (x y : float) : is_nan x = true -> (x <? y)%float = false.
Proof. rewrite is_nan_spec, ltb_spec. now intros ->. Qed.


Lemma leb_nan_l (x y : float) : is_nan x = true -> (x <=? y)%float = false.
Proof. rewrite is_nan_spec, leb_spec. now intros ->. Qed.

(** [a < b] and [b <= a] exclude each other. *)
Lemma leb_not_ltb (a b : float) : (b <=? a)%float = true -> (a <? b)%float = false.
Proof.
  rewrite leb_spec, ltb_spec. unfold SFleb, SFltb.
  rewrite (SFcompare_swap (Prim2SF a) (Prim2SF b)).
  now destruct (SFcompare (Prim2SF a) (Prim2SF b)) as [[]|].
Qed.

(** When [a < b] fails, either [b <= a] or one of the two is NaN. *)
Lemma not_ltb_cases (a b : float) :
  (a <? b)%float = false ->
  (b <=? a)%float = true \/ is_nan a = true \/ is_nan b = true.
Proof.
  rewrite !is_nan_spec, leb_spec, ltb_spec. unfold SFleb, SFltb.
  rewrite (SFcompare_swap (Prim2SF a) (Prim2SF b)).
  destruct (SFcompare (Prim2SF a) (Prim2SF b)) as [[]|] eqn:E; simpl;
    intros H; try discriminate H; auto.
  right. exact (SFcompare_None _ _ E).
Qed.


Lemma ltb_asym (a b : float) : (a <? b)%float = true -> (b <? a)%float = false.
Proof.
  rewrite !ltb_spec. unfold SFltb.
  rewrite (SFcompare_swap (Prim2SF a) (Prim2SF b)).
  now destruct (SFcompare (Prim2SF a) (Prim2SF b)) as [[]|].
Qed.

(** The sum of two defined values, through NanSum. *)
Lemma NanSum_defined (a b : float) :
  is_nan a = false -> is_nan b = false -> NanSum (NanSum nan a) b = (a + b)%float.
Proof.
  intros Ha Hb.
  assert (NanSum nan a = a) as -> by (unfold NanSum; now rewrite Ha).
  unfold NanSum. now rewrite Hb, Ha.
Qed.

End F64.

(** ** pgReplicationLag: the byte lag is floored at zero *)

Lemma lagBytes_not_negative (p r : float) : (lagBytes p r <? 0)%float = false.
Proof.
  unfold lagBytes.
  destruct (p - r <? 0)%float eqn:E; [reflexivity | exact E].
Qed.

Lemma lagBytes_difference (p r : float) :
  (0 <=? p - r)%float = true -> lagBytes p r = (p - r)%float.
Proof.
  intros H. unfold lagBytes. now rewrite (F64.leb_not_ltb _ _ H).
Qed.

Lemma lagBytes_floor (p r : float) :
  (p - r <? 0)%float = true -> lagBytes p r = 0%float.
Proof. intros H. unfold lagBytes. now rewrite H. Qed.

Lemma zip_with_lookup g (xs ys : list float) (i : nat) (x y : float) :
  xs !! i = Some x -> ys !! i = Some y -> zip_with g xs ys !! i = Some (g x y).
Proof.
  revert ys i. induction xs as [|x0 xs IH]; intros [|y0 ys] [|i] Hx Hy;
    simpl in *; try discriminate.
  - now inversion Hx; inversion Hy.
  - now apply IH.
Qed.

Lemma zip_with_lookup_inv g (xs ys : list float) (i : nat) (v : float) :
  zip_with g xs ys !! i = Some v ->
  exists x y, xs !! i = Some x /\ ys !! i = Some y /\ v = g x y.
Proof.
  revert ys i. induction xs as [|x0 xs IH]; intros [|y0 ys] [|i] H;
    simpl in *; try discriminate.
  - inversion H. eauto.
  - now apply IH.
Qed.

Lemma sample_value_not_empty (ts : TimeSeriesPtr) (i : nat) (v : float) :
  sample_value ts i = Some v -> IsEmpty ts = false.
Proof.
  destruct ts as [[t d vs]|]; simpl; [|discriminate].
  unfold IsEmpty; simpl. destruct vs; [now rewrite lookup_nil | reflexivity].
Qed.

Lemma pgReplicationLag_lookup (primaryLsn replayLsn : TimeSeriesPtr) (i : nat) (p r : float) :
  sample_value primaryLsn i = Some p ->
  sample_value replayLsn i = Some r ->
  sample_value (pgReplicationLag primaryLsn replayLsn) i = Some (lagBytes p r).
Proof.
  intros Hp Hr. unfold pgReplicationLag, Aggregate2.
  rewrite (sample_value_not_empty _ _ _ Hp), (sample_value_not_empty _ _ _ Hr).
  destruct primaryLsn as [sp|], replayLsn as [sr|]; try discriminate.
  simpl in *. now apply zip_with_lookup.
Qed.

Lemma pgReplicationLag_lookup_inv (primaryLsn replayLsn : TimeSeriesPtr) (i : nat) (v : float) :
  sample_value (pgReplicationLag primaryLsn replayLsn) i = Some v ->
  exists p r, sample_value primaryLsn i = Some p /\
              sample_value replayLsn i = Some r /\ v = lagBytes p r.
Proof.
  unfold pgReplicationLag, Aggregate2.
  destruct primaryLsn as [sp|], replayLsn as [sr|]; try discriminate.
  destruct (IsEmpty (Some sp) || IsEmpty (Some sr)); [discriminate|].
  simpl. apply zip_with_lookup_inv.
Qed.

(** C3. At every instant where the primary-position and the replayed-position
    series both have a value (in particular where both are numeric), the
    byte-lag series of pgReplicationLag holds [primary - replay] when that
    difference is non-negative and [0] when it is negative; and no value of
    the byte-lag series, at any instant, is negative. *)
Theorem pgReplicationLag_floored_at_zero
    (primaryLsn replayLsn : TimeSeriesPtr) (i : nat) (p r : float) :
  sample_value primaryLsn i = Some p ->
  sample_value replayLsn i = Some r ->
  let lag := pgReplicationLag primaryLsn replayLsn in
  (exists v, sample_value lag i = Some v /\
     ((0 <=? p - r)%float = true -> v = (p - r)%float) /\
     ((p - r <? 0)%float = true -> v = 0%float)) /\
  (forall j w, sample_value lag j = Some w -> (w <? 0)%float = false).
Proof.
  intros Hp Hr lag. split.
  - exists (lagBytes p r). split; [|split].
    + now apply pgReplicationLag_lookup.
    + apply lagBytes_difference.
    + apply lagBytes_floor.
  - intros j w Hw.
    apply pgReplicationLag_lookup_inv in Hw as (p' & r' & _ & _ & ->).
    apply lagBytes_not_negative.
Qed.

Lemma pgReplicationLag_floored_at_zero_witness :
  let lag := pgReplicationLag lsn_primary_example lsn_replay_example in
  (exists v, sample_value lag 1%nat = Some v /\
     ((0 <=? 200 - 250)%float = true -> v = (200 - 250)%float) /\
     ((200 - 250 <? 0)%float = true -> v = 0%float)) /\
  (forall j w, sample_value lag j = Some w -> (w <? 0)%float = false).
Proof.
  apply (pgReplicationLag_floored_at_zero
           lsn_primary_example lsn_replay_example 1 200 250); reflexivity.
Defined.

(** ** The Check as a set of items *)

Lemma AddItem_items (ch : Check) (name x : string) :
  x ∈ items (AddItem ch name) <-> x ∈ items ch \/ x = name.
Proof.
  unfold AddItem. case_bool_decide as Hin; simpl.
  - split; [auto | intros [H | ->]; assumption].
  - rewrite elem_of_app, list_elem_of_singleton. reflexivity.
Qed.


Lemma AddItem_Threshold (ch : Check) (name : string) :
  Threshold (AddItem ch name) = Threshold ch.
Proof. unfold AddItem. now case_bool_decide. Qed.

(** ** The scan of checkReplicationLag *)

Lemma last_cons_default {A : Type} (x d : A) (l : list A) :
  List.last (x :: l) d = List.last l x.
Proof.
  revert x d. induction l as [|y l IH]; intros x d; [reflexivity|].
  change (List.last (x :: y :: l) d) with (List.last (y :: l) d).
  now rewrite (IH y d), (IH y x).
Qed.

Lemma lastTime_cons (s : Sample) (l : list Sample) (d : Time) :
  lastTime (s :: l) d = lastTime l (fst s).
Proof. unfold lastTime. simpl List.map. apply last_cons_default. Qed.

Lemma lastTime_last (l : list Sample) (d : Time) :
  lastTime l d = match last l with Some s => fst s | None => d end.
Proof.
  revert d. induction l as [|s l IH]; intros d; [reflexivity|].
  rewrite lastTime_cons, IH. destruct l as [|s' l]; [reflexivity|].
  rewrite last_cons_cons. now destruct (last (s' :: l)) eqn:E; [|apply last_None in E].
Qed.

Lemma tracked_cons (vCurr last : float) (s : Sample) (iter : list Sample) :
  tracked vCurr last (s :: iter) =
  if skipped vCurr s then tracked vCurr last iter
  else if beyond vCurr last s then []
  else s :: tracked vCurr last iter.
Proof.
  unfold tracked. simpl. destruct (skipped vCurr s); simpl; [reflexivity|].
  now destruct (beyond vCurr last s).
Qed.

(** [tPast] after the loop is the time of the newest tracked sample. *)
Lemma scanLoop_tPast (vCurr last : float) (iter : list Sample) (st : scanState) :
  scan_tPast (scanLoop vCurr last iter st) =
  lastTime (tracked vCurr last iter) (scan_tPast st).
Proof.
  revert st. induction iter as [|[t v] rest IH]; intros st; [reflexivity|].
  rewrite tracked_cons. unfold skipped, beyond. simpl.
  destruct (vCurr <? v)%float.
  - now rewrite IH.
  - destruct (vCurr - last <? v)%float; [reflexivity|].
    now rewrite IH, lastTime_cons.
Qed.

(** Nothing after the first non-skipped sample that is [beyond] is read. *)
Lemma scanLoop_stops (vCurr last : float) (pre post : list Sample) (s : Sample)
    (st : scanState) :
  skipped vCurr s = false -> beyond vCurr last s = true ->
  scanLoop vCurr last (pre ++ s :: post) st = scanLoop vCurr last (pre ++ [s]) st.
Proof.
  intros Hs Hb. revert st. induction pre as [|[t v] pre IH]; intros st.
  - destruct s as [t v]. unfold skipped, beyond in *. simpl in *.
    now rewrite Hs, Hb.
  - simpl. destruct (vCurr <? v)%float; [apply IH|].
    destruct (vCurr - last <? v)%float; [reflexivity | apply IH].
Qed.

Lemma tracked_not_skipped (vCurr last : float) (iter : list Sample) (s : Sample) :
  s ∈ tracked vCurr last iter ->
  s ∈ iter /\ skipped vCurr s = false /\ beyond vCurr last s = false.
Proof.
  induction iter as [|s0 rest IH]; rewrite ?tracked_cons.
  - intros H. now apply not_elem_of_nil in H.
  - destruct (skipped vCurr s0) eqn:Hs.
    + intros H. destruct (IH H) as (? & ? & ?). split; [now right | auto].
    + destruct (beyond vCurr last s0) eqn:Hb.
      * intros H. now apply not_elem_of_nil in H.
      * intros H. apply elem_of_cons in H as [-> | H].
        -- split; [now left | auto].
        -- destruct (IH H) as (? & ? & ?). split; [now right | auto].
Qed.

Lemma scanPast_tracked (primaryLsn : TimeSeriesPtr) (last : float) :
  scanPast primaryLsn last =
  lastTime (tracked (snd (LastNotNull primaryLsn)) last (Iter primaryLsn)) 0.
Proof.
  unfold scanPast. destruct (LastNotNull primaryLsn) as [tCurr vCurr].
  now rewrite scanLoop_tPast.
Qed.

Lemma LastNotNull_fold_nan (l : list Sample) (acc : Sample) :
  is_nan (snd (fold_left (fun a (s : Sample) => if is_nan (snd s) then a else s) l acc)) = true ->
  is_nan (snd acc) = true /\ forall s, s ∈ l -> is_nan (snd s) = true.
Proof.
  revert acc. induction l as [|s0 l IH]; intros acc H; simpl in H.
  - split; [assumption|]. intros s Hs. now apply not_elem_of_nil in Hs.
  - destruct (IH _ H) as [Hacc Hl].
    destruct (is_nan (snd s0)) eqn:E; [|congruence].
    split; [assumption|]. intros s Hs.
    apply elem_of_cons in Hs as [-> | Hs]; auto.
Qed.

(** When even the latest defined value is NaN, the series has no defined
    value at all. *)
Lemma LastNotNull_nan (primaryLsn : TimeSeriesPtr) (s : Sample) :
  is_nan (snd (LastNotNull primaryLsn)) = true ->
  s ∈ Iter primaryLsn -> is_nan (snd s) = true.
Proof.
  intros H Hs. unfold LastNotNull in H.
  now apply (proj2 (LastNotNull_fold_nan _ _ H)).
Qed.

(** C1 (amended). In the chronological scan of the primary-position series,
    among the samples not skipped for [v > v_now], the tracked samples are
    those that come before the first sample with [v > v_now - L]: for each of
    them [v > v_now - L] does not hold ([v <= v_now - L], or a NaN is
    involved).  [t_past] is the time of the most recent tracked sample (the
    zero time when there is none), and the scan stops at the first non-skipped
    sample with [v > v_now - L]: what follows it is not read. *)
Theorem scan_tracks_until_first_beyond (primaryLsn : TimeSeriesPtr) (last : float) :
  let vCurr := snd (LastNotNull primaryLsn) in
  let trk := tracked vCurr last (Iter primaryLsn) in
  scanPast primaryLsn last = lastTime trk 0
  /\ (forall s, s ∈ trk ->
        (vCurr - last <? snd s)%float = false /\
        ((snd s <=? vCurr - last)%float = true \/
         is_nan (snd s) = true \/ is_nan (vCurr - last)%float = true))
  /\ (forall pre s post st,
        Iter primaryLsn = (pre ++ s :: post)%list ->
        skipped vCurr s = false -> beyond vCurr last s = true ->
        scanLoop vCurr last (Iter primaryLsn) st =
        scanLoop vCurr last (pre ++ [s]) st).
Proof.
  intros vCurr trk. split; [apply scanPast_tracked|]. split.
  - intros s Hs. apply tracked_not_skipped in Hs as (_ & _ & Hb).
    unfold beyond in Hb. split; [assumption|].
    destruct (F64.not_ltb_cases _ _ Hb) as [H | [H | H]]; auto.
  - intros pre s post st -> Hs Hb. now apply scanLoop_stops.
Qed.

Lemma scan_tracks_until_first_beyond_witness :
  scanLoop 1000 500 (Iter lsn_scenario1) scanInit =
  scanLoop 1000 500 (take 6 (Iter lsn_scenario1)) scanInit.
Proof.
  apply (proj2 (proj2 (scan_tracks_until_first_beyond lsn_scenario1 500))
           (take 5 (Iter lsn_scenario1)) (1075, 600%float)
           (drop 6 (Iter lsn_scenario1)) scanInit); reflexivity.
Defined.

(** C1 as worded fails on Scenario 1 of the specification (positions
    100..1000, byte lag 500): the scan tracks the five samples up to position
    500 and sets [t_past] to the time of the fifth, five steps before
    [t_now]; the rule as worded ([v >= v_now - L] tracked, stop at
    [v < v_now - L]) stops at the very first sample and tracks nothing. *)
Lemma scan_differs_from_worded_rule :
  LastNotNull lsn_scenario1 = (1135, 1000%float)
  /\ scanPast lsn_scenario1 500 = 1060
  /\ tracked 1000 500 (Iter lsn_scenario1) =
       [(1000, 100%float); (1015, 200%float); (1030, 300%float);
        (1045, 400%float); (1060, 500%float)]
  /\ tracked_as_worded 1000 500 (Iter lsn_scenario1) = []
  /\ lastTime (tracked_as_worded 1000 500 (Iter lsn_scenario1)) 0 = 0.
Proof. repeat split; reflexivity. Qed.

(** C4 (amended). A sample whose value exceeds [v_now] is skipped and never
    assigned as [t_past]: every sample the scan assigns is a sample of the
    series for which [v > v_now] does not hold, that is, [v <= v_now] or [v]
    is NaN; and [t_past], once set, is the time of the last of them. *)
Theorem tPast_from_unskipped_sample (primaryLsn : TimeSeriesPtr) (L : float) :
  let vCurr := snd (LastNotNull primaryLsn) in
  let trk := tracked vCurr L (Iter primaryLsn) in
  (forall s, s ∈ trk ->
     s ∈ Iter primaryLsn /\ (vCurr <? snd s)%float = false /\
     ((snd s <=? vCurr)%float = true \/ is_nan (snd s) = true))
  /\ match last trk with
     | Some s => scanPast primaryLsn L = fst s /\ s ∈ trk
     | None => scanPast primaryLsn L = 0
     end.
Proof.
  intros vCurr trk. split.
  - intros s Hs. apply tracked_not_skipped in Hs as (Hin & Hsk & _).
    unfold skipped in Hsk. repeat split; try assumption.
    destruct (F64.not_ltb_cases _ _ Hsk) as [H | [H | H]]; auto.
    right. now apply (LastNotNull_nan primaryLsn).
  - rewrite scanPast_tracked, lastTime_last. fold vCurr. fold trk.
    destruct (last trk) as [s|] eqn:E; [|reflexivity].
    split; [reflexivity|]. apply last_Some in E as [l' ->].
    apply elem_of_app. right. now left.
Qed.

Lemma tPast_from_unskipped_sample_witness :
  (1060, 500%float) ∈ Iter lsn_scenario1
  /\ (1000 <? 500)%float = false
  /\ ((500 <=? 1000)%float = true \/ is_nan 500%float = true).
Proof.
  apply (proj1 (tPast_from_unskipped_sample lsn_scenario1 500) (1060, 500%float)).
  apply list_elem_of_In. vm_compute. tauto.
Defined.

(** C4 as worded fails where the series has a gap: the first sample of
    [lsn_with_gap] holds NaN, it is not skipped, and [t_past] is its time,
    although [NaN <= v_now] is false. *)
Lemma tPast_from_gap_sample :
  Iter lsn_with_gap = [(1000, nan); (1015, 10%float)]
  /\ LastNotNull lsn_with_gap = (1015, 10%float)
  /\ scanPast lsn_with_gap 3 = 1000
  /\ (nan <=? 10)%float = false.
Proof. repeat split; reflexivity. Qed.

(** ** checkReplicationLag *)

Section CheckReplicationLag.

Variable FormatBytes : float -> string * string.
Variable FormatDuration : Duration -> Z -> string.

Local Abbreviation checkLag := (checkReplicationLag FormatBytes FormatDuration).


Lemma checkReplicationLag_no_result (name : string) (primaryLsn lag : TimeSeriesPtr)
    (role : ClusterRole) (check : Check) :
  noResult primaryLsn lag role = true ->
  checkLag name primaryLsn lag role check = (emptyTableCell, check).
Proof.
  unfold noResult, checkReplicationLag.
  destruct (IsEmpty primaryLsn); [reflexivity|].
  destruct (ClusterRole_eqb role ClusterRoleReplica); [|reflexivity].
  simpl. now intros ->.
Qed.

Lemma checkReplicationLag_evaluated (name : string) (primaryLsn lag : TimeSeriesPtr)
    (role : ClusterRole) (check : Check) :
  noResult primaryLsn lag role = false ->
  let L := Last lag in
  let lagTime := lagTimeOf primaryLsn L in
  checkLag name primaryLsn lag role check =
  ({| Value := fst (FormatBytes L); Unit := snd (FormatBytes L);
      Tags := if 0 <? lagTime
              then [String.append (tagPrefix (scanPast primaryLsn L))
                      (FormatDuration lagTime 1)]
              else [] |},
   if Go.float64_to_int64 (Threshold check) <? lagTime
   then AddItem check name else check).
Proof.
  unfold noResult. rewrite !orb_false_iff. intros [[He Hr] Hn].
  unfold checkReplicationLag, lagTimeOf, scanPast, tagPrefix.
  rewrite He, Hr, Hn.
  destruct (LastNotNull primaryLsn) as [tCurr vCurr].
  now destruct (FormatBytes (Last lag)).
Qed.


(** C5 (amended). When no sample was tracked, every rendered time tag is
    prefixed with ">".  When some sample was tracked and the time of the last
    tracked sample is not the zero time, the time tag carries no prefix; when
    that time is the zero time, the tag is prefixed with ">" all the same.
    The tag is rendered only for a positive time lag. *)
Theorem time_tag_prefix (name : string) (primaryLsn lag : TimeSeriesPtr)
    (role : ClusterRole) (check : Check) :
  noResult primaryLsn lag role = false ->
  let L := Last lag in
  let lagTime := lagTimeOf primaryLsn L in
  let trk := tracked (snd (LastNotNull primaryLsn)) L (Iter primaryLsn) in
  let tags := Tags (fst (checkLag name primaryLsn lag role check)) in
  (trk = [] ->
     tags = if 0 <? lagTime
            then [String.append ">" (FormatDuration lagTime 1)] else [])
  /\ (forall s, last trk = Some s -> fst s <> 0 ->
        tags = if 0 <? lagTime then [FormatDuration lagTime 1] else [])
  /\ (forall s, last trk = Some s -> fst s = 0 ->
        tags = if 0 <? lagTime
               then [String.append ">" (FormatDuration lagTime 1)] else []).
Proof.
  intros E L lagTime trk tags. unfold tags.
  rewrite (checkReplicationLag_evaluated _ _ _ _ _ E). simpl.
  fold L. fold lagTime. rewrite scanPast_tracked, lastTime_last. fold trk.
  unfold tagPrefix, Time_IsZero. split; [|split].
  - now intros ->.
  - intros s -> Hs. apply Z.eqb_neq in Hs. now rewrite Hs.
  - intros s -> Hs. apply Z.eqb_eq in Hs. now rewrite Hs.
Qed.


End CheckReplicationLag.


Lemma time_tag_prefix_witness :
  Tags (fst (checkReplicationLag bytes_example duration_example "pg-1"
               lsn_scenario1 (lag_of 500) ClusterRoleReplica (CreateCheck 30)))
  = ["1m"].
Proof.
  destruct (time_tag_prefix bytes_example duration_example "pg-1"
              lsn_scenario1 (lag_of 500) ClusterRoleReplica (CreateCheck 30)
              eq_refl) as (_ & H & _).
  exact (H (1060, 500%float) eq_refl ltac:(cbn; lia)).
Defined.

(** C5 as worded fails, whichever condition "qualified" refers to.  With the
    scan's own condition: a series that starts at the zero time has its first
    sample tracked, [t_past] is that sample's time, the zero time, and the
    tag is prefixed with ">" although a sample qualified.  With the condition
    as the specification words it ([v >= v_now - L]): every sample of
    [lsn_short_history] satisfies it for a byte lag of 200, yet the scan
    stops at the first of them and the tag is prefixed with ">". *)
Lemma time_tag_prefixed_despite_tracked_sample :
  (LastNotNull lsn_from_zero_time = (15, 10%float)
   /\ tracked 10 3 (Iter lsn_from_zero_time) = [(0, 5%float)]
   /\ (forall FormatBytes FormatDuration name check,
         Tags (fst (checkReplicationLag FormatBytes FormatDuration name
                      lsn_from_zero_time (lag_of 3) ClusterRoleReplica check))
         = [String.append ">" (FormatDuration 15 1)]))
  /\ (LastNotNull lsn_short_history = (1030, 1000%float)
      /\ tracked_as_worded 1000 200 (Iter lsn_short_history)
         = [(1000, 900%float); (1015, 950%float); (1030, 1000%float)]
      /\ tracked 1000 200 (Iter lsn_short_history) = []
      /\ (forall FormatBytes FormatDuration name check,
            Tags (fst (checkReplicationLag FormatBytes FormatDuration name
                         lsn_short_history (lag_of 200) ClusterRoleReplica check))
            = [String.append ">" (FormatDuration 1030 1)])).
Proof.
  split.
  - split; [reflexivity|]. split; [reflexivity|].
    intros FormatBytes FormatDuration name check.
    now rewrite checkReplicationLag_evaluated.
  - split; [reflexivity|]. split; [reflexivity|]. split; [reflexivity|].
    intros FormatBytes FormatDuration name check.
    now rewrite checkReplicationLag_evaluated.
Qed.


(** ** pgConnections: the canonical buckets *)

Lemma canonicalState_locked (k : PgConnectionKey) :
  State k = "active" -> WaitEventType k = "Lock" ->
  canonicalState k = pgActiveLockedState.
Proof. unfold canonicalState. now intros -> ->. Qed.

Lemma canonicalState_raw (k : PgConnectionKey) :
  ~ (State k = "active" /\ WaitEventType k = "Lock") ->
  canonicalState k = State k.
Proof.
  unfold canonicalState. intros H.
  destruct (String.eqb_spec (State k) "active") as [Hs|Hs]; [|reflexivity].
  destruct (String.eqb_spec (WaitEventType k) "Lock") as [Hw|Hw]; [|reflexivity].
  now destruct H.
Qed.

Lemma contributors_snoc (conns : list (PgConnectionKey * TimeSeriesPtr))
    (kv : PgConnectionKey * TimeSeriesPtr) (b : string) :
  contributors (conns ++ [kv]) b =
  (contributors conns b ++
   if String.eqb (canonicalState (fst kv)) b then [kv] else [])%list.
Proof.
  unfold contributors. rewrite List.filter_app. simpl.
  now destruct (String.eqb (canonicalState (fst kv)) b).
Qed.

Lemma elem_of_contributors (conns : list (PgConnectionKey * TimeSeriesPtr))
    (kv : PgConnectionKey * TimeSeriesPtr) (b : string) :
  kv ∈ contributors conns b <-> kv ∈ conns /\ canonicalState (fst kv) = b.
Proof.
  unfold contributors. rewrite !list_elem_of_In, List.filter_In, String.eqb_eq.
  reflexivity.
Qed.

Lemma connectionsLoop_snoc (conns : list (PgConnectionKey * TimeSeriesPtr))
    (kv : PgConnectionKey * TimeSeriesPtr) :
  connectionsLoop (conns ++ [kv]) = connectionsStep (connectionsLoop conns) kv.
Proof. unfold connectionsLoop. now rewrite fold_left_app. Qed.

(** After the first loop, bucket [b] holds exactly the series whose key is
    canonicalised to [b]. *)
Lemma connectionsLoop_bucket (conns : list (PgConnectionKey * TimeSeriesPtr)) (b : string) :
  fst (connectionsLoop conns) !! b = bucketOf conns b.
Proof.
  induction conns as [|[k v] conns IH] using rev_ind; [apply lookup_empty|].
  rewrite connectionsLoop_snoc. unfold bucketOf in *.
  rewrite contributors_snoc. simpl fst.
  destruct (connectionsLoop conns) as [m t]. simpl in *.
  fold (canonicalState k).
  destruct (String.eqb_spec (canonicalState k) b) as [Heq | Hne].
  - subst b. rewrite lookup_insert_eq, IH.
    destruct (contributors conns (canonicalState k)) as [|kv0 l]; [reflexivity|].
    simpl. unfold Aggregate_Add. simpl. now rewrite List.map_app.
  - rewrite lookup_insert_ne, IH by assumption. now rewrite app_nil_r.
Qed.

(** The total after the first loop. *)
Lemma connectionsLoop_total (conns : list (PgConnectionKey * TimeSeriesPtr)) :
  snd (connectionsLoop conns) = fold_left (fun t kv => addLast t (snd kv)) conns 0%float.
Proof.
  induction conns as [|[k v] conns IH] using rev_ind; [reflexivity|].
  rewrite connectionsLoop_snoc, fold_left_app. simpl. rewrite <- IH.
  now destruct (connectionsLoop conns) as [m t].
Qed.

(** The buckets pgConnections ends with: "reserved" is built afresh from
    the settings; every other bucket is as the first loop left it. *)
Lemma pgConnections_buckets (instance : Instance) (check : Check) :
  let settings := Settings (Pg instance) in
  connectionByState (pgConnections instance check) =
  <["reserved" :=
      {| f := NanSum;
         input := [settingSamples settings "superuser_reserved_connections";
                   settingSamples settings "rds.rds_superuser_reserved_connections"] |}]>
    (fst (connectionsLoop (Connections (Pg instance)))).
Proof.
  unfold pgConnections.
  destruct (connectionsLoop (Connections (Pg instance))) as [m t]. simpl.
  rewrite !alter_insert_eq. reflexivity.
Qed.

Lemma pgConnections_total (instance : Instance) (check : Check) :
  total (pgConnections instance check) = totalOf instance.
Proof.
  unfold pgConnections, totalOf. rewrite <- connectionsLoop_total.
  destruct (connectionsLoop (Connections (Pg instance))) as [m t]. reflexivity.
Qed.

Lemma pgConnections_check (instance : Instance) (check : Check) :
  let max := Last (settingSamples (Settings (Pg instance)) "max_connections") in
  let tot := totalOf instance in
  connectionsCheck (pgConnections instance check) =
  if (0 <? max)%float && (0 <? tot)%float then
    if (Threshold check <? tot / max * 100)%float
    then AddItem check (Name instance) else check
  else check.
Proof.
  intros max tot. unfold tot. rewrite <- (pgConnections_total instance check).
  unfold pgConnections.
  destruct (connectionsLoop (Connections (Pg instance))) as [m t]. reflexivity.
Qed.

Lemma pgConnections_chart (instance : Instance) (check : Check) :
  chart (pgConnections instance check) =
  Aggregate_Get <$> connectionByState (pgConnections instance check).
Proof.
  unfold pgConnections.
  destruct (connectionsLoop (Connections (Pg instance))) as [m t]. reflexivity.
Qed.

(** C6. The first loop of pgConnections sends every connection key to one
    canonical bucket: (state "active", wait event "Lock") to
    "active (locked)", any other key to its raw state.  Each bucket is a
    NanSum aggregate over exactly the series that land in it, so a
    connection contributes to the bucket of its canonical state and to no
    other; in particular none contributes to both "active" and
    "active (locked)".  The buckets other than "reserved" reach the chart
    unchanged. *)
Theorem connections_land_in_one_bucket (instance : Instance) (check : Check) :
  let conns := Connections (Pg instance) in
  let buckets := fst (connectionsLoop conns) in
  (forall k, State k = "active" -> WaitEventType k = "Lock" ->
             canonicalState k = "active (locked)")
  /\ (forall k, ~ (State k = "active" /\ WaitEventType k = "Lock") ->
                canonicalState k = State k)
  /\ (forall b, buckets !! b = bucketOf conns b)
  /\ (forall b agg i, buckets !! b = Some agg ->
        f agg = NanSum /\
        input agg = List.map snd (contributors conns b) /\
        Aggregate_at agg i =
          fold_left (fun acc ts => NanSum acc (value_at ts i))
                    (List.map snd (contributors conns b)) nan)
  /\ (forall kv b, kv ∈ contributors conns b <->
                   kv ∈ conns /\ b = canonicalState (fst kv))
  /\ (forall kv, ~ (kv ∈ contributors conns "active" /\
                    kv ∈ contributors conns "active (locked)"))
  /\ (forall b, b <> "reserved" ->
        connectionByState (pgConnections instance check) !! b = bucketOf conns b).
Proof.
  intros conns buckets.
  split; [exact canonicalState_locked|].
  split; [exact canonicalState_raw|].
  split; [intros b; apply connectionsLoop_bucket|].
  split.
  - intros b agg i. unfold buckets. rewrite connectionsLoop_bucket.
    unfold bucketOf. destruct (contributors conns b) as [|kv0 l] eqn:E;
      [discriminate|].
    intros [= <-]. unfold Aggregate_at. simpl. auto.
  - split.
    + intros kv b. rewrite elem_of_contributors. intuition congruence.
    + split.
      * intros kv [H1 H2]. apply elem_of_contributors in H1 as [_ H1].
        apply elem_of_contributors in H2 as [_ H2]. congruence.
      * intros b Hb. rewrite pgConnections_buckets. simpl.
        rewrite lookup_insert_ne by congruence. apply connectionsLoop_bucket.
Qed.

Lemma connections_land_in_one_bucket_witness :
  connectionByState (pgConnections instance_scenario3 (CreateCheck 90)) !! "active (locked)"
  = Some {| f := NanSum; input := [one_sample 20] |}
  /\ connectionByState (pgConnections instance_scenario3 (CreateCheck 90)) !! "active"
     = Some {| f := NanSum; input := [one_sample 60] |}.
Proof.
  destruct (connections_land_in_one_bucket instance_scenario3 (CreateCheck 90))
    as (_ & _ & _ & _ & _ & _ & H).
  split.
  - exact (H "active (locked)" ltac:(discriminate)).
  - exact (H "active" ltac:(discriminate)).
Defined.

(** ** pgConnections: the saturation check *)




(** ** pgConnections: the reserved bucket *)

Lemma Aggregate_Get_value (a : Aggregate) (s : TimeSeries) (i : nat) :
  Aggregate_Get a = Some s -> (i < length (data s))%nat ->
  value_at (Some s) i = Aggregate_at a i.
Proof.
  unfold Aggregate_Get.
  destruct (List.filter (fun ts => negb (IsEmpty ts)) (input a)) as [|[s0|] l];
    try discriminate.
  intros [= <-]. simpl. rewrite length_map, length_seq. intros Hi.
  rewrite (nth_indep _ nan (Aggregate_at a 0%nat))
    by now rewrite length_map, length_seq.
  now rewrite map_nth, seq_nth.
Qed.

(** C8 (amended). pgConnections always installs a fresh "reserved" bucket:
    a NanSum aggregate fed with the two reserved-connections setting series
    and nothing else, whatever the connections are.  At an instant where both
    series are defined the bucket holds their sum.  When neither setting is
    present the bucket has no defined value at any instant: the series handed
    to the chart is the empty one, whose latest value is NaN, and the total
    is what the connections alone add up to. *)
Theorem reserved_bucket_from_settings (instance : Instance) (check : Check) :
  let settings := Settings (Pg instance) in
  let s1 := settingSamples settings "superuser_reserved_connections" in
  let s2 := settingSamples settings "rds.rds_superuser_reserved_connections" in
  let agg := {| f := NanSum; input := [s1; s2] |} in
  let r := pgConnections instance check in
  connectionByState r !! "reserved" = Some agg
  /\ chart r !! "reserved" = Some (Aggregate_Get agg)
  /\ (forall i, Aggregate_at agg i =
                NanSum (NanSum nan (value_at s1 i)) (value_at s2 i))
  /\ (forall i, is_nan (value_at s1 i) = false -> is_nan (value_at s2 i) = false ->
                Aggregate_at agg i = (value_at s1 i + value_at s2 i)%float)
  /\ (forall s i, Aggregate_Get agg = Some s -> (i < length (data s))%nat ->
                  value_at (Some s) i = Aggregate_at agg i)
  /\ (settings !! "superuser_reserved_connections" = None ->
      settings !! "rds.rds_superuser_reserved_connections" = None ->
      chart r !! "reserved" = Some None
      /\ (forall i, is_nan (Aggregate_at agg i) = true)
      /\ total r = snd (connectionsLoop (Connections (Pg instance)))).
Proof.
  intros settings s1 s2 agg r.
  assert (connectionByState r !! "reserved" = Some agg) as Hb
    by (unfold r; rewrite pgConnections_buckets; apply lookup_insert_eq).
  assert (chart r !! "reserved" = Some (Aggregate_Get agg)) as Hc
    by (unfold r; rewrite pgConnections_chart, lookup_fmap; fold r;
        now rewrite Hb).
  split; [assumption|]. split; [assumption|].
  split; [reflexivity|].
  split; [intros i; apply F64.NanSum_defined|].
  split; [intros s i; apply Aggregate_Get_value|].
  intros H1 H2.
  assert (s1 = None) as E1 by (unfold s1, settingSamples; now rewrite H1).
  assert (s2 = None) as E2 by (unfold s2, settingSamples; now rewrite H2).
  split; [|split].
  - etrans; [exact Hc|]. unfold agg. now rewrite E1, E2.
  - intros i. unfold agg. now rewrite E1, E2.
  - unfold r. rewrite pgConnections_total, connectionsLoop_total.
    unfold totalOf. fold settings. fold s1. fold s2. now rewrite E1, E2.
Qed.

Lemma reserved_bucket_from_settings_witness :
  Aggregate_at
    {| f := NanSum;
       input := [settingSamples (Settings (Pg instance_two_reserved))
                   "superuser_reserved_connections";
                 settingSamples (Settings (Pg instance_two_reserved))
                   "rds.rds_superuser_reserved_connections"] |} 0%nat
  = (3 + 2)%float.
Proof.
  destruct (reserved_bucket_from_settings instance_two_reserved (CreateCheck 90))
    as (_ & _ & _ & H & _).
  exact (H 0%nat eq_refl eq_refl).
Defined.

(** C8 as worded fails when no reserved-connections setting is present: the
    bucket's series is the empty one and its latest value is NaN, which is
    not zero. *)
Lemma reserved_bucket_empty_without_settings :
  let r := pgConnections instance_no_settings (CreateCheck 90) in
  connectionByState r !! "reserved"
    = Some {| f := NanSum; input := [None; None] |}
  /\ chart r !! "reserved" = Some None
  /\ is_nan (Last None) = true
  /\ (Last None =? 0)%float = false
  /\ total r = 10%float.
Proof. repeat split; reflexivity. Qed.

(** ** The deployments audit *)

Section DeploymentsAudit.

Variable FormatDuration : Duration -> Z -> string.
Variable ApplicationDeploymentMinLifetime : Duration.

Local Abbreviation auditStep := (deploymentsStep FormatDuration ApplicationDeploymentMinLifetime).
Local Abbreviation auditLoop := (deploymentsLoop FormatDuration ApplicationDeploymentMinLifetime).

(** One iteration writes the check only for a Stuck deployment. *)
Lemma deploymentsStep_check (now : Time) (statuses : list ApplicationDeploymentStatus)
    (i : nat) (ds : ApplicationDeploymentStatus) (st : auditState) :
  deploymentStatusCheck (auditStep now statuses i ds st) =
  if isStuck ds
  then SetValue (deploymentStatusCheck st) (stuckFor now ds)
  else deploymentStatusCheck st.
Proof.
  unfold deploymentsStep, isStuck, stuckFor.
  destruct (DeploymentState ds); simpl; try reflexivity.
  - now destruct (Z.of_nat i =? Z.of_nat (length statuses) - 1).
  - now destruct (0 <? Z.of_nat (length (Summary ds))).
Qed.





End DeploymentsAudit.


(** * Further properties of the audits *)

(** ** More facts about binary64 and about series *)

Lemma sub_nan_r (p r : float) : is_nan r = true -> is_nan (p - r)%float = true.
Proof.
  rewrite !F64.is_nan_spec, sub_spec. intros ->. unfold SF64sub, SFsub.
  now destruct (Prim2SF p).
Qed.

Lemma sub_nan_l (p r : float) : is_nan p = true -> is_nan (p - r)%float = true.
Proof.
  rewrite !F64.is_nan_spec, sub_spec. now intros ->.
Qed.

Lemma eqb_zero_spec (x : float) :
  (x =? 0)%float = true -> exists s, Prim2SF x = S754_zero s.
Proof.
  rewrite eqb_spec. change (Prim2SF 0) with (S754_zero false).
  unfold SFeqb. destruct (Prim2SF x) as [s|s| |s m e]; simpl; try discriminate.
  - eauto.
  - now destruct s.
  - now destruct s.
Qed.

(** Subtracting a zero does not change how a value compares. *)
Lemma sub_zero_ltb (x z v : float) :
  (z =? 0)%float = true -> (x - z <? v)%float = (x <? v)%float.
Proof.
  intros Hz. destruct (eqb_zero_spec z Hz) as [s Hs].
  rewrite !ltb_spec, sub_spec, Hs. unfold SF64sub, SFsub, SFltb.
  destruct (Prim2SF x) as [sx|sx| |sx mx ex]; try reflexivity.
  destruct sx, s; simpl; now destruct (Prim2SF v).
Qed.

Lemma ltb_irrefl (x : float) : (x <? x)%float = false.
Proof.
  destruct (x <? x)%float eqn:E; [|reflexivity].
  now rewrite (F64.ltb_asym _ _ E) in E.
Qed.

Lemma map_snd_samples_from (t : Time) (d : Duration) (vs : list float) :
  List.map snd (samples_from t d vs) = vs.
Proof.
  revert t. induction vs as [|v vs IH]; intros t; simpl; [reflexivity|].
  now rewrite IH.
Qed.

Lemma Last_data (s : TimeSeries) : Last (Some s) = List.last (data s) nan.
Proof. unfold Last. simpl. now rewrite map_snd_samples_from. Qed.

Lemma Last_defined_snoc (ts : TimeSeriesPtr) :
  is_nan (Last ts) = false ->
  exists l s, Iter ts = (l ++ [s])%list /\ snd s = Last ts.
Proof.
  unfold Last. destruct (Iter ts) as [|s0 l0] using rev_ind.
  - simpl. discriminate.
  - intros _. exists l0, s0. split; [reflexivity|].
    rewrite List.map_app. simpl. now rewrite List.last_last.
Qed.

(** With a defined newest sample, [LastNotNull] is that sample. *)
Lemma LastNotNull_newest (ts : TimeSeriesPtr) (l : list Sample) (s : Sample) :
  Iter ts = (l ++ [s])%list -> is_nan (snd s) = false -> LastNotNull ts = s.
Proof.
  intros Hi Hs. unfold LastNotNull. rewrite Hi, fold_left_app. simpl.
  now rewrite Hs.
Qed.

Lemma lastTime_samples_from_ge (t0 t : Time) (d : Duration) (vs : list float) :
  0 <= d -> t0 <= t -> t0 <= lastTime (samples_from t d vs) t0.
Proof.
  intros Hd. revert t0 t. induction vs as [|v vs IH]; intros t0 t Ht; simpl.
  - unfold lastTime. simpl. lia.
  - rewrite lastTime_cons. simpl.
    specialize (IH t (Time_Add t d)). unfold Time_Add in *. lia.
Qed.

(** With a non-negative step, the sample times lie between the first and
    the last. *)
Lemma samples_from_times (t t0 : Time) (d : Duration) (vs : list float) (s : Sample) :
  0 <= d -> s ∈ samples_from t d vs ->
  t <= fst s /\ fst s <= lastTime (samples_from t d vs) t0.
Proof.
  intros Hd. revert t t0. induction vs as [|v vs IH]; intros t t0 Hs; simpl in *.
  - now apply not_elem_of_nil in Hs.
  - rewrite lastTime_cons. simpl.
    apply elem_of_cons in Hs as [-> | Hs]; simpl.
    + split; [lia|]. apply lastTime_samples_from_ge; unfold Time_Add; lia.
    + destruct (IH _ t Hs) as [H1 H2]. unfold Time_Add in *. split; [lia | exact H2].
Qed.

Lemma lastTime_snoc (l : list Sample) (s : Sample) (d : Time) :
  lastTime (l ++ [s]) d = fst s.
Proof. now rewrite lastTime_last, last_snoc. Qed.

Lemma takeWhile_filter {A : Type} (p : A -> bool) (l : list A) :
  takeWhile p (List.filter p l) = List.filter p l.
Proof.
  induction l as [|x l IH]; [reflexivity|]. simpl.
  destruct (p x) eqn:E; [|assumption]. simpl. now rewrite E, IH.
Qed.

Lemma takeWhile_ext {A : Type} (p q : A -> bool) (l : list A) :
  (forall x, p x = q x) -> takeWhile p l = takeWhile q l.
Proof.
  intros H. induction l as [|x l IH]; [reflexivity|]. simpl.
  now rewrite H, IH.
Qed.

Lemma zip_with_last g (xs ys : list float) :
  length xs = length ys -> xs <> [] ->
  List.last (zip_with g xs ys) nan = g (List.last xs nan) (List.last ys nan).
Proof.
  revert ys. induction xs as [|x xs IH]; intros [|y ys] Hlen Hne;
    simpl in Hlen; try discriminate; [contradiction|].
  destruct xs as [|x' xs']; destruct ys as [|y' ys']; simpl in Hlen;
    try discriminate; [reflexivity|].
  change (zip_with g (x :: x' :: xs') (y :: y' :: ys'))
    with (g x y :: zip_with g (x' :: xs') (y' :: ys')).
  change (List.last (x :: x' :: xs') nan) with (List.last (x' :: xs') nan).
  change (List.last (y :: y' :: ys') nan) with (List.last (y' :: ys') nan).
  rewrite <- (IH (y' :: ys')) by (simpl; congruence).
  reflexivity.
Qed.

Lemma AddItem_frame (ch : Check) (name : string) :
  Threshold (AddItem ch name) = Threshold ch
  /\ count (AddItem ch name) = count ch
  /\ value (AddItem ch name) = value ch
  /\ (items (AddItem ch name) = items ch \/
      ((name ∉ items ch) /\ items (AddItem ch name) = (items ch ++ [name])%list)).
Proof. unfold AddItem. case_bool_decide; simpl; intuition. Qed.

Lemma AddItem_idem (ch : Check) (name : string) :
  AddItem (AddItem ch name) name = AddItem ch name.
Proof.
  destruct (decide (name ∈ items ch)) as [Hin | Hout].
  - assert (AddItem ch name = ch) as ->
      by (unfold AddItem; now rewrite bool_decide_eq_true_2).
    unfold AddItem. now rewrite bool_decide_eq_true_2.
  - unfold AddItem at 2. rewrite bool_decide_eq_false_2 by assumption.
    unfold AddItem at 1. simpl. rewrite bool_decide_eq_true_2; [|set_solver].
    unfold AddItem. now rewrite bool_decide_eq_false_2.
Qed.

(** ** checkReplicationLag and pgReplicationLag, further *)

Section ReplicationLagMore.

Variable FormatBytes : float -> string * string.
Variable FormatDuration : Duration -> Z -> string.

Local Abbreviation checkLag := (checkReplicationLag FormatBytes FormatDuration).

(** X1. checkReplicationLag leaves the threshold, the counter and the value
    of the Check alone and never removes or reorders an item: the items are
    as they were, or the instance's name is appended to them.  Running it
    again on its own result changes nothing. *)
Theorem checkReplicationLag_only_appends (name : string)
    (primaryLsn lag : TimeSeriesPtr) (role : ClusterRole) (check : Check) :
  let check' := snd (checkLag name primaryLsn lag role check) in
  Threshold check' = Threshold check
  /\ count check' = count check
  /\ value check' = value check
  /\ (items check' = items check \/
      ((name ∉ items check) /\ items check' = (items check ++ [name])%list))
  /\ snd (checkLag name primaryLsn lag role check') = check'.
Proof.
  intros check'. unfold check'.
  destruct (noResult primaryLsn lag role) eqn:E.
  - rewrite !(checkReplicationLag_no_result _ _ _ _ _ _ _ E). simpl.
    repeat (split; [auto|]). reflexivity.
  - rewrite (checkReplicationLag_evaluated _ _ _ _ _ _ _ E). simpl.
    destruct (Go.float64_to_int64 (Threshold check) <? lagTimeOf primaryLsn (Last lag))
      eqn:Hlt.
    + destruct (AddItem_frame check name) as (Ht & Hc & Hv & Hi).
      repeat (split; [assumption|]).
      rewrite (checkReplicationLag_evaluated _ _ _ _ _ _ _ E). simpl.
      now rewrite Ht, Hlt, AddItem_idem.
    + repeat (split; [auto|]).
      rewrite (checkReplicationLag_evaluated _ _ _ _ _ _ _ E). simpl.
      now rewrite Hlt.
Qed.

(** X3. A replica that has caught up (byte lag zero) on a defined newest
    primary position has a time lag of zero: the cell carries no time tag,
    and with a non-negative threshold the instance is not recorded. *)
Theorem caught_up_replica_has_no_time_lag (name : string)
    (primaryLsn lag : TimeSeriesPtr) (role : ClusterRole) (check : Check) :
  noResult primaryLsn lag role = false ->
  (Last lag =? 0)%float = true ->
  is_nan (Last primaryLsn) = false ->
  let r := checkLag name primaryLsn lag role check in
  scanPast primaryLsn (Last lag) = fst (LastNotNull primaryLsn)
  /\ lagTimeOf primaryLsn (Last lag) = 0
  /\ Tags (fst r) = []
  /\ (0 <= Go.float64_to_int64 (Threshold check) -> snd r = check).
Proof.
  intros E Hz Hdef r.
  destruct (Last_defined_snoc _ Hdef) as (l & s & Hiter & Hs).
  assert (is_nan (snd s) = false) as Hsn by now rewrite Hs.
  pose proof (LastNotNull_newest _ _ _ Hiter Hsn) as Hlnn.
  assert (scanPast primaryLsn (Last lag) = fst s) as Hpast.
  { rewrite scanPast_tracked, Hlnn. unfold tracked.
    rewrite (takeWhile_ext _ (fun x => negb (skipped (snd s) x))).
    2:{ intros x. unfold beyond, skipped. now rewrite sub_zero_ltb. }
    rewrite takeWhile_filter, Hiter, List.filter_app. simpl.
    unfold skipped at 2. simpl. rewrite ltb_irrefl. simpl.
    apply lastTime_snoc. }
  assert (lagTimeOf primaryLsn (Last lag) = 0) as Hlag
    by (unfold lagTimeOf, Time_Sub; rewrite Hpast, Hlnn; lia).
  split; [now rewrite Hlnn|]. split; [assumption|].
  unfold r. rewrite (checkReplicationLag_evaluated _ _ _ _ _ _ _ E). simpl.
  rewrite Hlag. split; [reflexivity|].
  intros Hth. now replace (Go.float64_to_int64 (Threshold check) <? 0) with false
    by (symmetry; apply Z.ltb_ge; lia).
Qed.

(** X4. When the replica has no replayed position (the series is nil or
    empty), or when the newest replayed or primary position is NaN on series
    of the same length, the byte lag computed by pgReplicationLag has no
    latest value and checkReplicationLag gives no result: the empty cell, the
    Check untouched. *)
Theorem unknown_position_gives_no_result (name : string)
    (primaryLsn replayLsn : TimeSeriesPtr) (role : ClusterRole) (check : Check) :
  IsEmpty replayLsn = true \/
  (length (valuesOf primaryLsn) = length (valuesOf replayLsn) /\
   (is_nan (Last replayLsn) = true \/ is_nan (Last primaryLsn) = true)) ->
  is_nan (Last (pgReplicationLag primaryLsn replayLsn)) = true
  /\ checkLag name primaryLsn (pgReplicationLag primaryLsn replayLsn) role check
     = (emptyTableCell, check).
Proof.
  intros H.
  assert (is_nan (Last (pgReplicationLag primaryLsn replayLsn)) = true) as Hnan.
  { unfold pgReplicationLag, Aggregate2.
    destruct primaryLsn as [sp|], replayLsn as [sr|]; try reflexivity.
    destruct (IsEmpty (Some sp)) eqn:Ep; [reflexivity|].
    destruct (IsEmpty (Some sr)) eqn:Er; [reflexivity|].
    destruct H as [H | [Hlen H]]; [discriminate|]. simpl in *.
    rewrite Last_data. simpl.
    assert (data sp <> []) as Hne.
    { intros Hnil. unfold IsEmpty in Ep. simpl in Ep. now rewrite Hnil in Ep. }
    rewrite zip_with_last by assumption. rewrite <- !Last_data.
    assert (is_nan (Last (Some sp) - Last (Some sr))%float = true) as Hd
      by (destruct H; [now apply sub_nan_r | now apply sub_nan_l]).
    unfold lagBytes. now rewrite (F64.ltb_nan_l _ _ Hd). }
  split; [assumption|].
  apply checkReplicationLag_no_result. unfold noResult.
  rewrite Hnan. now rewrite !orb_true_r.
Qed.

End ReplicationLagMore.

(** X2. On a series whose times are not negative and do not decrease, with
    a defined newest sample, the time lag lies between zero and [t_now]:
    [t_past] is never later than [t_now]. *)
Theorem lagTime_within_window (s0 : TimeSeries) (L : float) :
  0 <= from s0 -> 0 <= step s0 -> is_nan (Last (Some s0)) = false ->
  0 <= lagTimeOf (Some s0) L <= fst (LastNotNull (Some s0)).
Proof.
  intros Hfrom Hstep Hdef.
  destruct (Last_defined_snoc _ Hdef) as (l & s & Hiter & Hs).
  assert (is_nan (snd s) = false) as Hsn by now rewrite Hs.
  pose proof (LastNotNull_newest _ _ _ Hiter Hsn) as Hlnn.
  assert (forall x, x ∈ Iter (Some s0) -> from s0 <= fst x <= fst s) as Htimes.
  { intros x Hx. simpl in Hx, Hiter.
    pose proof (samples_from_times _ 0 _ _ _ Hstep Hx) as H.
    rewrite Hiter, lastTime_snoc in H. exact H. }
  unfold lagTimeOf, Time_Sub. rewrite scanPast_tracked, lastTime_last, Hlnn.
  assert (from s0 <= fst s) as Hs0
    by (apply Htimes; rewrite Hiter; apply elem_of_app; right; now left).
  destruct (last (tracked (snd s) L (Iter (Some s0)))) as [x|] eqn:E.
  - apply last_Some_elem_of in E. apply tracked_not_skipped in E as (Hin & _).
    specialize (Htimes x Hin). unfold Sample, Time, Duration in *. lia.
  - unfold Sample, Time, Duration in *. lia.
Qed.

Lemma lagTime_within_window_witness :
  0 <= lagTimeOf lsn_scenario1 500 <= 1135.
Proof.
  exact (lagTime_within_window
           {| from := 1000; step := 15;
              data := [100; 200; 300; 400; 500; 600; 700; 800; 900; 1000]%float |}
           500 ltac:(vm_compute; discriminate) ltac:(vm_compute; discriminate)
           eq_refl).
Defined.

Lemma caught_up_replica_has_no_time_lag_witness :
  Tags (fst (checkReplicationLag bytes_example duration_example "pg-1"
               lsn_scenario1 (lag_of 0) ClusterRoleReplica (CreateCheck 30))) = []
  /\ snd (checkReplicationLag bytes_example duration_example "pg-1"
            lsn_scenario1 (lag_of 0) ClusterRoleReplica (CreateCheck 30))
     = CreateCheck 30.
Proof.
  destruct (caught_up_replica_has_no_time_lag bytes_example duration_example
              "pg-1" lsn_scenario1 (lag_of 0) ClusterRoleReplica (CreateCheck 30)
              eq_refl eq_refl eq_refl) as (_ & _ & Ht & Hc).
  split; [exact Ht|]. apply Hc. vm_compute. discriminate.
Defined.

Lemma unknown_position_gives_no_result_witness :
  checkReplicationLag bytes_example duration_example "pg-1" lsn_scenario1
    (pgReplicationLag lsn_scenario1 lsn_replay_unknown) ClusterRoleReplica
    (CreateCheck 30)
  = (emptyTableCell, CreateCheck 30).
Proof.
  exact (proj2 (unknown_position_gives_no_result bytes_example duration_example
                  "pg-1" lsn_scenario1 lsn_replay_unknown ClusterRoleReplica
                  (CreateCheck 30)
                  (or_intror (conj eq_refl (or_introl eq_refl))))).
Defined.

(** ** Maps filled by a loop of assignments *)

Section LastWrite.

Context {X V : Type}.
Variable stp : gmap string V -> X -> gmap string V.
Variable sel : X -> bool.
Variable key : X -> string.
Variable val : X -> V.
Hypothesis stp_spec :
  forall m x, stp m x = if sel x then <[key x := val x]> m else m.

(** A loop of map assignments leaves under each key the value of the last
    selected element with that key. *)
Lemma fold_insert_lookup (l : list X) (m0 : gmap string V) (s : string) :
  fold_left stp l m0 !! s =
  match last (List.filter (fun x => sel x && String.eqb (key x) s) l) with
  | Some x => Some (val x)
  | None => m0 !! s
  end.
Proof.
  induction l as [|x l IH] using rev_ind; [reflexivity|].
  rewrite fold_left_app, List.filter_app. simpl. rewrite stp_spec.
  destruct (sel x) eqn:Hsel; simpl.
  - destruct (String.eqb_spec (key x) s) as [Hk | Hk]; simpl.
    + rewrite last_snoc. subst s. apply lookup_insert_eq.
    + rewrite app_nil_r, lookup_insert_ne by assumption. exact IH.
  - rewrite app_nil_r. exact IH.
Qed.

Lemma fold_insert_sound (l : list X) (s : string) (v : V) :
  fold_left stp l ∅ !! s = Some v ->
  exists x, x ∈ l /\ sel x = true /\ key x = s /\ val x = v.
Proof.
  rewrite fold_insert_lookup.
  destruct (last (List.filter (fun x => sel x && String.eqb (key x) s) l))
    as [x|] eqn:E; [|now rewrite lookup_empty].
  intros [= <-]. apply last_Some_elem_of, list_elem_of_In, List.filter_In in E
    as [Hin Hx].
  apply andb_true_iff in Hx as [Hsel Hk]. apply String.eqb_eq in Hk.
  exists x. rewrite list_elem_of_In. auto.
Qed.

Lemma fold_insert_complete (l : list X) (x : X) :
  x ∈ l -> sel x = true -> is_Some (fold_left stp l ∅ !! key x).
Proof.
  intros Hin Hsel. rewrite fold_insert_lookup.
  destruct (last (List.filter (fun y => sel y && String.eqb (key y) (key x)) l))
    as [y|] eqn:E; [eauto|].
  apply last_None in E.
  assert (x ∈ List.filter (fun y => sel y && String.eqb (key y) (key x)) l) as H.
  { apply list_elem_of_In, List.filter_In. rewrite <- list_elem_of_In.
    split; [assumption|]. now rewrite Hsel, String.eqb_refl. }
  rewrite E in H. now apply not_elem_of_nil in H.
Qed.

End LastWrite.

Lemma fold_left_pair {A B X : Type} (stp : A * B -> X -> A * B)
    (s1 : A -> X -> A) (s2 : B -> X -> B) (l : list X) (a : A) (b : B) :
  (forall a b x, stp (a, b) x = (s1 a x, s2 b x)) ->
  fold_left stp l (a, b) = (fold_left s1 l a, fold_left s2 l b).
Proof.
  intros H. revert a b. induction l as [|x l IH]; intros a b; [reflexivity|].
  simpl. now rewrite H, IH.
Qed.

(** ** The series handed to the top-5 charts *)

Section ChartInputs.

Variable ConnectionKeyString : PgConnectionKey -> string.
Variable QueryKeyString : PgQueryKey -> string.
Variable FindStringSubmatch : string -> list string.

Lemma errorsByPatternStep_spec (res : gmap string TimeSeriesPtr) (p : LogPattern) :
  errorsByPatternStep FindStringSubmatch res p =
  if isErrorLevel p then <[errorKey FindStringSubmatch p := Sum p]> res else res.
Proof.
  unfold errorsByPatternStep, isErrorLevel, errorKey.
  destruct (LogLevel_eqb (Level p) LogLevelError),
           (LogLevel_eqb (Level p) LogLevelCritical); simpl; try reflexivity;
    destruct (FindStringSubmatch (PatternSample p)) as [|g0 [|g1 [|g2 [|g3 gs]]]];
    reflexivity.
Qed.

(** X5. errorsByPattern reports only patterns of level error or critical:
    every entry of its result is the series of such a pattern, filed under
    "KIND: message" when the expression matches and under the sample
    otherwise; every such pattern has its label in the result; and without
    any such pattern the result is empty. *)
Theorem errorsByPattern_only_errors (logPatterns : list LogPattern) :
  let res := errorsByPattern FindStringSubmatch logPatterns in
  (forall label ts, res !! label = Some ts ->
     exists p, p ∈ logPatterns
       /\ (Level p = LogLevelError \/ Level p = LogLevelCritical)
       /\ errorKey FindStringSubmatch p = label /\ Sum p = ts)
  /\ (forall p, p ∈ logPatterns ->
        Level p = LogLevelError \/ Level p = LogLevelCritical ->
        is_Some (res !! errorKey FindStringSubmatch p))
  /\ ((forall p, p ∈ logPatterns ->
         Level p <> LogLevelError /\ Level p <> LogLevelCritical) ->
      res = ∅).
Proof.
  intros res.
  assert (forall p, isErrorLevel p = true <->
                    Level p = LogLevelError \/ Level p = LogLevelCritical) as Hlvl.
  { intros p. unfold isErrorLevel. rewrite orb_true_iff.
    destruct (Level p); simpl; intuition congruence. }
  split; [|split].
  - intros label ts H.
    apply (fold_insert_sound _ _ _ _ errorsByPatternStep_spec) in H
      as (p & Hin & Hsel & Hk & Hv).
    exists p. rewrite <- Hlvl. auto.
  - intros p Hin Hp. apply Hlvl in Hp.
    now apply (fold_insert_complete _ _ _ _ errorsByPatternStep_spec).
  - intros Hnone. apply map_eq. intros label. rewrite lookup_empty.
    destruct (res !! label) as [ts|] eqn:E; [|reflexivity].
    apply (fold_insert_sound _ _ _ _ errorsByPatternStep_spec) in E
      as (p & Hin & Hsel & _).
    apply Hlvl in Hsel. destruct (Hnone p Hin). intuition.
Qed.

Lemma pgQueries_maps (perQuery : list (PgQueryKey * PgQueryStat)) :
  pgQueries QueryKeyString perQuery =
  (totalTimeMap QueryKeyString perQuery, ioTimeMap QueryKeyString perQuery).
Proof.
  unfold pgQueries. apply fold_left_pair. now intros a b [k stat].
Qed.

Lemma pgQueries_pair (perQuery : list (PgQueryKey * PgQueryStat)) (label : string) :
  (totalTimeMap QueryKeyString perQuery !! label = None /\
   ioTimeMap QueryKeyString perQuery !! label = None) \/
  (exists k stat, (k, stat) ∈ perQuery /\ QueryKeyString k = label /\
     totalTimeMap QueryKeyString perQuery !! label = Some (TotalTime stat) /\
     ioTimeMap QueryKeyString perQuery !! label = Some (IoTime stat)).
Proof.
  unfold totalTimeMap, ioTimeMap.
  rewrite (fold_insert_lookup _ (fun _ => true) (fun kv => QueryKeyString (fst kv))
             (fun kv => TotalTime (snd kv))) by reflexivity.
  rewrite (fold_insert_lookup _ (fun _ => true) (fun kv => QueryKeyString (fst kv))
             (fun kv => IoTime (snd kv))) by reflexivity.
  destruct (last _) as [[k stat]|] eqn:E.
  - right. exists k, stat.
    apply last_Some_elem_of, list_elem_of_In, List.filter_In in E as [Hin Hk].
    simpl in Hk. apply String.eqb_eq in Hk. rewrite list_elem_of_In. auto.
  - left. now rewrite !lookup_empty.
Qed.

(** X6. The two maps of pgQueries always pair up: under every label either
    neither has a series, or both hold the series of one and the same entry
    of the per-query statistics (the last one visited with that label), so
    the total-time and the I/O-time charts rank the same queries. *)
Theorem pgQueries_maps_pair_up (perQuery : list (PgQueryKey * PgQueryStat)) :
  let totalTime := fst (pgQueries QueryKeyString perQuery) in
  let ioTime := snd (pgQueries QueryKeyString perQuery) in
  (forall label,
     (totalTime !! label = None /\ ioTime !! label = None) \/
     (exists k stat, (k, stat) ∈ perQuery /\ QueryKeyString k = label /\
        totalTime !! label = Some (TotalTime stat) /\
        ioTime !! label = Some (IoTime stat)))
  /\ (forall k stat, (k, stat) ∈ perQuery ->
        is_Some (totalTime !! QueryKeyString k) /\
        is_Some (ioTime !! QueryKeyString k))
  /\ dom totalTime = dom ioTime.
Proof.
  intros totalTime ioTime. unfold totalTime, ioTime. rewrite pgQueries_maps. simpl.
  split; [exact (pgQueries_pair perQuery)|]. split.
  - intros k stat Hin. split.
    + now apply (fold_insert_complete _ (fun _ => true)
                   (fun kv => QueryKeyString (fst kv)) (fun kv => TotalTime (snd kv))
                   ltac:(reflexivity) perQuery (k, stat)).
    + now apply (fold_insert_complete _ (fun _ => true)
                   (fun kv => QueryKeyString (fst kv)) (fun kv => IoTime (snd kv))
                   ltac:(reflexivity) perQuery (k, stat)).
  - apply set_eq. intros label. rewrite !elem_of_dom.
    destruct (pgQueries_pair perQuery label) as [[-> ->] | (k & stat & _ & _ & -> & ->)];
      [reflexivity|]. split; eauto.
Qed.

(** X7. pgLocks keeps one series per blocking query text: every entry is
    the awaiting-queries series of a key with that query text, every key's
    query text has an entry, and keys that share a query text share one
    entry (the series of the last of them visited; they are not added up). *)
Theorem pgLocks_one_series_per_query
    (awaiting : list (PgQueryKey * TimeSeriesPtr)) :
  let blockingQueries := pgLocks awaiting in
  (forall q ts, blockingQueries !! q = Some ts ->
     exists k, (k, ts) ∈ awaiting /\ Query k = q)
  /\ (forall k ts, (k, ts) ∈ awaiting -> is_Some (blockingQueries !! Query k))
  /\ (forall l k ts, awaiting = (l ++ [(k, ts)])%list ->
        blockingQueries !! Query k = Some ts)
  /\ (size blockingQueries <= length awaiting)%nat.
Proof.
  intros blockingQueries. unfold blockingQueries, pgLocks.
  split; [|split; [|split]].
  - intros q ts H.
    apply (fold_insert_sound _ (fun _ => true) (fun kv => Query (fst kv)) snd) in H
      as ([k ts'] & Hin & _ & Hk & Hv); [|reflexivity].
    simpl in *. subst. eauto.
  - intros k ts Hin.
    now apply (fold_insert_complete _ (fun _ => true) (fun kv => Query (fst kv)) snd
                 ltac:(reflexivity) awaiting (k, ts)).
  - intros l k ts ->. rewrite fold_left_app. simpl. apply lookup_insert_eq.
  - induction awaiting as [|[k ts] l IH] using rev_ind; [simpl; now rewrite map_size_empty|].
    rewrite fold_left_app, length_app. simpl.
    rewrite map_size_insert. destruct (_ !! _); simpl in *; lia.
Qed.

Lemma drilldown_maps (instance : Instance) :
  pgConnectionsDrilldown ConnectionKeyString instance =
  (idleMap ConnectionKeyString (Connections (Pg instance)),
   lockedMap ConnectionKeyString (Connections (Pg instance))).
Proof.
  unfold pgConnectionsDrilldown. apply fold_left_pair.
  intros a b [k v]. unfold drilldownStep, isLockWaiting. simpl.
  destruct (String.eqb (State k) "idle in transaction"); [reflexivity|].
  now destruct (String.eqb (State k) "active" && String.eqb (WaitEventType k) "Lock").
Qed.

(** X8. The drill-down maps of pgConnections agree with its buckets: every
    series of the locked-queries map is a series summed into the
    "active (locked)" bucket, of a connection with raw state "active"
    waiting for a lock; every series of the idle-transactions map is a series
    summed into the "idle in transaction" bucket; each such connection has
    its label in the corresponding map; and no connection goes to both
    maps. *)
Theorem drilldown_agrees_with_buckets (instance : Instance) :
  let conns := Connections (Pg instance) in
  let idleInTransaction := fst (pgConnectionsDrilldown ConnectionKeyString instance) in
  let locked := snd (pgConnectionsDrilldown ConnectionKeyString instance) in
  (forall label ts, locked !! label = Some ts ->
     exists k, (k, ts) ∈ contributors conns "active (locked)"
       /\ State k = "active" /\ WaitEventType k = "Lock"
       /\ ConnectionKeyString k = label)
  /\ (forall label ts, idleInTransaction !! label = Some ts ->
        exists k, (k, ts) ∈ contributors conns "idle in transaction"
          /\ State k = "idle in transaction" /\ ConnectionKeyString k = label)
  /\ (forall k ts, (k, ts) ∈ conns ->
        State k = "active" -> WaitEventType k = "Lock" ->
        is_Some (locked !! ConnectionKeyString k))
  /\ (forall k ts, (k, ts) ∈ conns -> State k = "idle in transaction" ->
        is_Some (idleInTransaction !! ConnectionKeyString k))
  /\ (forall k ts, (k, ts) ∈ conns ->
        ~ (State k = "idle in transaction" /\
           State k = "active" /\ WaitEventType k = "Lock")).
Proof.
  intros conns idleInTransaction locked.
  unfold idleInTransaction, locked. rewrite drilldown_maps. simpl. fold conns.
  unfold idleMap, lockedMap.
  split; [|split; [|split; [|split]]].
  - intros label ts H.
    apply (fold_insert_sound _
             (fun kv : PgConnectionKey * TimeSeriesPtr =>
                negb (String.eqb (State (fst kv)) "idle in transaction")
                && isLockWaiting (fst kv))
             (fun kv => ConnectionKeyString (fst kv)) snd) in H
      as ([k ts'] & Hin & Hsel & Hk & Hv); [|reflexivity].
    simpl in *. subst ts'. apply andb_true_iff in Hsel as [_ Hsel].
    unfold isLockWaiting in Hsel. apply andb_true_iff in Hsel as [Hs Hw].
    apply String.eqb_eq in Hs, Hw. exists k.
    rewrite elem_of_contributors. simpl.
    rewrite (canonicalState_locked k Hs Hw). auto.
  - intros label ts H.
    apply (fold_insert_sound _
             (fun kv : PgConnectionKey * TimeSeriesPtr =>
                String.eqb (State (fst kv)) "idle in transaction")
             (fun kv => ConnectionKeyString (fst kv)) snd) in H
      as ([k ts'] & Hin & Hsel & Hk & Hv); [|reflexivity].
    simpl in *. subst ts'. apply String.eqb_eq in Hsel. exists k.
    rewrite elem_of_contributors. simpl.
    rewrite canonicalState_raw by (rewrite Hsel; intros [? _]; discriminate).
    auto.
  - intros k ts Hin Hs Hw.
    apply (fold_insert_complete _
             (fun kv : PgConnectionKey * TimeSeriesPtr =>
                negb (String.eqb (State (fst kv)) "idle in transaction")
                && isLockWaiting (fst kv))
             (fun kv => ConnectionKeyString (fst kv)) snd
             ltac:(reflexivity) conns (k, ts) Hin).
    unfold isLockWaiting. simpl. now rewrite Hs, Hw.
  - intros k ts Hin Hs.
    apply (fold_insert_complete _
             (fun kv : PgConnectionKey * TimeSeriesPtr =>
                String.eqb (State (fst kv)) "idle in transaction")
             (fun kv => ConnectionKeyString (fst kv)) snd
             ltac:(reflexivity) conns (k, ts) Hin).
    simpl. now rewrite Hs.
  - intros k ts _ (H1 & H2 & _). congruence.
Qed.

End ChartInputs.

(** ** pgConnections, further *)

Lemma bucketOf_is_Some (conns : list (PgConnectionKey * TimeSeriesPtr)) (b : string) :
  is_Some (bucketOf conns b) <-> exists kv, kv ∈ conns /\ canonicalState (fst kv) = b.
Proof.
  unfold bucketOf. destruct (contributors conns b) as [|kv l] eqn:E.
  - split; [intros [? H]; discriminate|].
    intros (kv & Hin & Hc).
    assert (kv ∈ contributors conns b) as H by now apply elem_of_contributors.
    rewrite E in H. now apply not_elem_of_nil in H.
  - split; [|eauto]. intros _. exists kv.
    apply elem_of_contributors. rewrite E. now left.
Qed.

Lemma contributors_Permutation (conns conns' : list (PgConnectionKey * TimeSeriesPtr))
    (b : string) :
  conns ≡ₚ conns' -> contributors conns b ≡ₚ contributors conns' b.
Proof.
  unfold contributors. induction 1 as [|x l l' _ IH|x y l|l1 l2 l3 _ IH1 _ IH2]; simpl.
  - reflexivity.
  - destruct (String.eqb _ b); [now constructor | assumption].
  - destruct (String.eqb (canonicalState (fst x)) b),
             (String.eqb (canonicalState (fst y)) b);
      try reflexivity. apply perm_swap.
  - etrans; [exact IH1 | exact IH2].
Qed.

(** X9. The stacked connections chart gets exactly one series per canonical
    state that occurs among the connections, and the "reserved" series:
    nothing else, and "reserved" also when no connection and no setting is
    known. *)
Theorem connections_chart_states (instance : Instance) (check : Check) :
  dom (chart (pgConnections instance check)) =
  {["reserved"]} ∪
  list_to_set ((fun kv => canonicalState (fst kv)) <$> Connections (Pg instance)).
Proof.
  rewrite pgConnections_chart, dom_fmap_L, pgConnections_buckets. simpl.
  rewrite dom_insert_L. f_equal.
  apply set_eq. intros b.
  rewrite elem_of_dom, connectionsLoop_bucket, bucketOf_is_Some.
  rewrite elem_of_list_to_set, list_elem_of_fmap.
  split; intros (kv & H1 & H2); exists kv; auto.
Qed.

(** X10. The buckets do not depend on the order in which the connections
    map is visited: for connections visited in another order, every bucket
    exists in both runs or in neither, and holds the same series up to their
    order. *)
Theorem connection_buckets_order_independent
    (conns conns' : list (PgConnectionKey * TimeSeriesPtr)) (b : string) :
  conns ≡ₚ conns' ->
  match fst (connectionsLoop conns) !! b, fst (connectionsLoop conns') !! b with
  | Some a, Some a' => f a = f a' /\ input a ≡ₚ input a'
  | None, None => True
  | _, _ => False
  end.
Proof.
  intros Hp. rewrite !connectionsLoop_bucket. unfold bucketOf.
  pose proof (contributors_Permutation _ _ b Hp) as Hc.
  destruct (contributors conns b) as [|kv l] eqn:E,
           (contributors conns' b) as [|kv' l'] eqn:E'.
  - exact I.
  - now apply Permutation_nil_cons in Hc.
  - symmetry in Hc. now apply Permutation_nil_cons in Hc.
  - split; [reflexivity|]. simpl input. now apply (fmap_Permutation snd) in Hc.
Qed.

Lemma connection_buckets_order_independent_witness :
  match
    fst (connectionsLoop (Connections (Pg instance_scenario3))) !! "idle",
    fst (connectionsLoop (rev (Connections (Pg instance_scenario3)))) !! "idle"
  with
  | Some a, Some a' => f a = f a' /\ input a ≡ₚ input a'
  | None, None => True
  | _, _ => False
  end.
Proof.
  apply (connection_buckets_order_independent
           (Connections (Pg instance_scenario3))
           (rev (Connections (Pg instance_scenario3))) "idle").
  apply Permutation_rev.
Defined.

(** X11. pgConnections leaves the threshold, the counter and the value of
    the Check alone and never removes or reorders an item: the items are as
    they were, or the instance's name is appended to them.  Running it again
    on its own result changes nothing. *)
Theorem pgConnections_only_appends (instance : Instance) (check : Check) :
  let check' := connectionsCheck (pgConnections instance check) in
  Threshold check' = Threshold check
  /\ count check' = count check
  /\ value check' = value check
  /\ (items check' = items check \/
      ((Name instance ∉ items check) /\
       items check' = (items check ++ [Name instance])%list))
  /\ connectionsCheck (pgConnections instance check') = check'.
Proof.
  intros check'. unfold check'. rewrite !pgConnections_check.
  destruct ((0 <? Last (settingSamples (Settings (Pg instance)) "max_connections"))%float
            && (0 <? totalOf instance)%float); [|repeat (split; [auto|]); reflexivity].
  destruct (Threshold check <? _)%float eqn:Hlt.
  - destruct (AddItem_frame check (Name instance)) as (Ht & Hc & Hv & Hi).
    repeat (split; [assumption|]). now rewrite Ht, Hlt, AddItem_idem.
  - repeat (split; [auto|]). now rewrite Hlt.
Qed.

(** ** The deployments audit, further *)

Section DeploymentsMore.

Variable FormatDuration : Duration -> Z -> string.
Variable ApplicationDeploymentMinLifetime : Duration.

Local Abbreviation auditStep := (deploymentsStep FormatDuration ApplicationDeploymentMinLifetime).
Local Abbreviation auditLoop := (deploymentsLoop FormatDuration ApplicationDeploymentMinLifetime).

Lemma deploymentsStep_row (now : Time) (statuses : list ApplicationDeploymentStatus)
    (i : nat) (ds : ApplicationDeploymentStatus) (st : auditState) :
  exists c, rows (auditStep now statuses i ds st) = (rows st ++ [(Deployment ds, c)])%list
            /\ rowShows (length statuses) i ds c.
Proof.
  unfold deploymentsStep, rowShows.
  destruct (DeploymentState ds) eqn:Hs; simpl.
  - eexists. split; [reflexivity|]. simpl. repeat split; try discriminate; auto.
  - eexists. split; [reflexivity|]. simpl. repeat split; try discriminate; auto.
  - eexists. split; [reflexivity|]. simpl. repeat split; try discriminate; auto.
  - destruct (Z.of_nat i =? Z.of_nat (length statuses) - 1) eqn:E;
      (eexists; split; [reflexivity|]); simpl;
      (split; [auto|]); (split; [discriminate|]); intros _; (split; [reflexivity|]).
    + apply Z.eqb_eq in E. split; [lia | reflexivity].
    + apply Z.eqb_neq in E. split; [discriminate | lia].
  - destruct (0 <? Z.of_nat (length (Summary ds)));
      (eexists; split; [reflexivity|]); simpl; repeat split; try discriminate; auto.
Qed.

Lemma deploymentsStep_frame (now : Time) (statuses : list ApplicationDeploymentStatus)
    (i : nat) (ds : ApplicationDeploymentStatus) (st : auditState) :
  let ch := deploymentStatusCheck st in
  let ch' := deploymentStatusCheck (auditStep now statuses i ds st) in
  Threshold ch' = Threshold ch /\ items ch' = items ch /\ count ch' = count ch.
Proof.
  simpl. rewrite deploymentsStep_check. now destruct (isStuck ds).
Qed.

(** The rows the iterations [n-1 .. 0] add, first added first. *)
Lemma deploymentsLoop_rows (now : Time) (statuses : list ApplicationDeploymentStatus)
    (n : nat) (st : auditState) :
  (n <= length statuses)%nat ->
  exists new,
    rows (auditLoop now statuses n st) = (rows st ++ new)%list
    /\ List.map fst new = rev (List.map Deployment (take n statuses))
    /\ (forall i ds, (i < n)%nat -> statuses !! i = Some ds ->
          exists c, new !! (n - 1 - i)%nat = Some (Deployment ds, c)
                    /\ rowShows (length statuses) i ds c).
Proof.
  revert st. induction n as [|n IH]; intros st Hn.
  - exists []. rewrite take_0, app_nil_r.
    split; [reflexivity|]. split; [reflexivity|]. intros; lia.
  - destruct (lookup_lt_is_Some_2 statuses n ltac:(lia)) as [ds Hds].
    simpl. rewrite Hds.
    destruct (deploymentsStep_row now statuses n ds st) as (c & Hrow & Hshow).
    destruct (IH (auditStep now statuses n ds st) ltac:(lia)) as (new & Hrows & Hfst & Hnew).
    exists ((Deployment ds, c) :: new). split; [|split].
    + rewrite Hrows, Hrow, <- app_assoc. reflexivity.
    + rewrite (take_S_r _ _ _ Hds), List.map_app, rev_app_distr. simpl.
      now rewrite Hfst.
    + intros i ds' Hi Hi'. destruct (decide (i = n)) as [-> | Hne].
      * replace (n - 0 - n)%nat with 0%nat by lia.
        rewrite Hds in Hi'. inversion Hi'; subst. eauto.
      * replace (n - 0 - i)%nat with (S (n - 1 - i)) by lia.
        apply (Hnew i ds' ltac:(lia) Hi').
Qed.

Lemma deploymentsLoop_frame (now : Time) (statuses : list ApplicationDeploymentStatus)
    (n : nat) (st : auditState) :
  let ch := deploymentStatusCheck st in
  let ch' := deploymentStatusCheck (auditLoop now statuses n st) in
  Threshold ch' = Threshold ch /\ items ch' = items ch /\ count ch' = count ch.
Proof.
  revert st. induction n as [|n IH]; intros st; simpl; [auto|].
  destruct (statuses !! n) as [ds|]; [|apply IH].
  destruct (IH (auditStep now statuses n ds st)) as (H1 & H2 & H3).
  destruct (deploymentsStep_frame now statuses n ds st) as (H1' & H2' & H3').
  simpl in *. repeat split; congruence.
Qed.

(** X12. The deployments table has one row per status, newest deployment
    first: row [k] shows the status of index [length - 1 - k].  The row of a
    Stuck deployment carries exactly one failed summary, with the status'
    message and timed at the deployment's start; a Deployed status shows
    "Collecting data..." only in the first row, as the newest deployment; no
    summary cell carries a stub and summaries at once. *)
Theorem deployment_rows_newest_first (appDeployments : list ApplicationDeployment)
    (statuses : list ApplicationDeploymentStatus) (threshold : float) (now : Time) :
  appDeployments <> [] ->
  exists st,
    deployments FormatDuration ApplicationDeploymentMinLifetime
      appDeployments statuses threshold now = Some st
    /\ List.map fst (rows st) = rev (List.map Deployment statuses)
    /\ length (rows st) = length statuses
    /\ (forall i ds, statuses !! i = Some ds ->
          exists c, rows st !! (length statuses - 1 - i)%nat = Some (Deployment ds, c)
                    /\ rowShows (length statuses) i ds c).
Proof.
  intros Hne. unfold deployments.
  destruct appDeployments as [|d0 l]; [contradiction|]. simpl length.
  replace (Z.of_nat (S (length l)) =? 0) with false by (symmetry; apply Z.eqb_neq; lia).
  eexists. split; [reflexivity|].
  destruct (deploymentsLoop_rows now statuses (length statuses)
              {| deploymentStatusCheck := CreateCheck threshold; rows := [] |}
              ltac:(lia)) as (new & Hrows & Hfst & Hnew).
  simpl in Hrows. rewrite Hrows. rewrite firstn_all in Hfst.
  split; [assumption|]. split.
  - rewrite <- (length_map fst new), Hfst, length_rev, length_map. reflexivity.
  - intros i ds Hi. apply (Hnew i ds); [|assumption].
    now apply lookup_lt_Some in Hi.
Qed.

(** X13. The deployments audit writes nothing to the check but its value:
    the threshold is the configured one, no item is recorded and the counter
    stays zero, whatever the statuses are. *)
Theorem deployments_write_only_the_value (appDeployments : list ApplicationDeployment)
    (statuses : list ApplicationDeploymentStatus) (threshold : float) (now : Time)
    (st : auditState) :
  deployments FormatDuration ApplicationDeploymentMinLifetime
    appDeployments statuses threshold now = Some st ->
  Threshold (deploymentStatusCheck st) = threshold
  /\ items (deploymentStatusCheck st) = []
  /\ count (deploymentStatusCheck st) = 0.
Proof.
  unfold deployments.
  destruct (Z.of_nat (length appDeployments) =? 0); [discriminate|].
  intros [= <-].
  apply (deploymentsLoop_frame now statuses (length statuses)
           {| deploymentStatusCheck := CreateCheck threshold; rows := [] |}).
Qed.

End DeploymentsMore.

(** ** The Postgres audit *)

(** A loop that records names on one check, under a condition that reads
    only the check's threshold, records exactly the names that meet it. *)
Lemma fold_AddItem_items {I R : Type} (stp : R -> I -> R) (proj : R -> Check)
    (name : I -> string) (cond : float -> I -> bool) :
  (forall r i, proj (stp r i) =
               if cond (Threshold (proj r)) i then AddItem (proj r) (name i) else proj r) ->
  forall l r,
    Threshold (proj (fold_left stp l r)) = Threshold (proj r)
    /\ count (proj (fold_left stp l r)) = count (proj r)
    /\ forall x, x ∈ items (proj (fold_left stp l r)) <->
                 x ∈ items (proj r) \/
                 exists i, i ∈ l /\ cond (Threshold (proj r)) i = true /\ name i = x.
Proof.
  intros Hstp l. induction l as [|i l IH]; intros r; simpl.
  - repeat split; auto. intros [H | (i & Hi & _)]; [assumption|].
    now apply not_elem_of_nil in Hi.
  - destruct (IH (stp r i)) as (Ht & Hc & Hi). rewrite Hstp in Ht, Hc, Hi.
    assert (Threshold (if cond (Threshold (proj r)) i
                       then AddItem (proj r) (name i) else proj r)
            = Threshold (proj r)) as Hth
      by (destruct (cond _ i); [apply AddItem_Threshold | reflexivity]).
    rewrite Hth in Ht, Hi.
    split; [assumption|]. split.
    { rewrite Hc. destruct (cond _ i); [|reflexivity].
      now destruct (AddItem_frame (proj r) (name i)) as (_ & H & _). }
    intros x. rewrite Hi. split.
    + intros [H | (j & Hj & Hcj & Hn)].
      * destruct (cond (Threshold (proj r)) i) eqn:E; [|auto].
        apply AddItem_items in H as [H | ->]; [auto|].
        right. exists i. split; [now left | auto].
      * right. exists j. split; [now right | auto].
    + intros [H | (j & Hj & Hcj & Hn)].
      * left. destruct (cond _ i); [|assumption]. apply AddItem_items. auto.
      * apply elem_of_cons in Hj as [-> | Hj].
        -- left. rewrite Hcj. apply AddItem_items. auto.
        -- right. eauto.
Qed.

Section PostgresAudit.

Variable FormatBytes : float -> string * string.
Variable FormatDuration : Duration -> Z -> string.

Local Abbreviation auditStep := (postgresStep FormatBytes FormatDuration).

Lemma postgresStep_availability (primaryLsn : Aggregate) (r : postgresReport)
    (i : AppInstance) :
  availability (auditStep primaryLsn r i) =
  if match InstancePostgres i with
     | Some pg => negb (Obsolete i) && negb (Up pg)
     | None => false
     end
  then AddItem (availability r) (InstanceName i) else availability r.
Proof.
  unfold postgresStep. destruct (InstancePostgres i) as [pg|]; [|reflexivity].
  destruct (Obsolete i); [reflexivity|].
  destruct (checkReplicationLag _ _ _ _ _ _ _). simpl. now destruct (Up pg).
Qed.

Lemma postgresStep_latency (primaryLsn : Aggregate) (r : postgresReport)
    (i : AppInstance) :
  latency (auditStep primaryLsn r i) =
  if match InstancePostgres i with
     | Some pg => (Threshold (latency r) <? Last (Avg pg))%float
     | None => false
     end
  then AddItem (latency r) (InstanceName i) else latency r.
Proof.
  unfold postgresStep. destruct (InstancePostgres i) as [pg|]; [|reflexivity].
  destruct (Obsolete i); [reflexivity|].
  now destruct (checkReplicationLag _ _ _ _ _ _ _).
Qed.


Lemma postgresStep_errors (primaryLsn : Aggregate) (r : postgresReport)
    (i : AppInstance) :
  errors (auditStep primaryLsn r i) =
  match InstancePostgres i with
  | Some _ =>
      if Obsolete i then errors r
      else
        let total :=
          Reduce NanSum
            (Aggregate_Get
               (Aggregate_Add
                  (Aggregate_Add (NewAggregate NanSum) (LogMessagesByLevel i LogLevelError))
                  (LogMessagesByLevel i LogLevelCritical))) in
        if is_nan total then errors r else Inc (errors r) (Go.float64_to_int64 total)
  | None => errors r
  end.
Proof.
  unfold postgresStep. destruct (InstancePostgres i) as [pg|]; [|reflexivity].
  destruct (Obsolete i); [reflexivity|].
  destruct (checkReplicationLag _ _ _ _ _ _ _). simpl.
  now destruct (is_nan _).
Qed.

Lemma postgresStep_lagCells (primaryLsn : Aggregate) (r : postgresReport)
    (i : AppInstance) :
  List.map fst (lagCells (auditStep primaryLsn r i)) =
  (List.map fst (lagCells r) ++
   match InstancePostgres i with
   | Some _ => if Obsolete i then [] else [InstanceName i]
   | None => []
   end)%list.
Proof.
  unfold postgresStep. destruct (InstancePostgres i) as [pg|];
    [|now rewrite app_nil_r].
  destruct (Obsolete i); [simpl; now rewrite app_nil_r|].
  destruct (checkReplicationLag _ _ _ _ _ _ _). simpl.
  now rewrite List.map_app.
Qed.


(** X14. The availability check of the Postgres audit lists exactly the
    instances that have Postgres data, are not obsolete and are not up: an
    instance without Postgres data or an obsolete one is never recorded
    there. *)
Theorem availability_lists_down_instances (instances : list AppInstance)
    (th : postgresThresholds) (x : string) :
  exists report,
    postgres FormatBytes FormatDuration true instances th = Some report
    /\ (x ∈ items (availability report) <->
        exists i pg, i ∈ instances /\ InstancePostgres i = Some pg
                     /\ Obsolete i = false /\ Up pg = false /\ InstanceName i = x).
Proof.
  unfold postgres. simpl. eexists. split; [reflexivity|].
  destruct (fold_AddItem_items (auditStep (primaryLsnOf instances)) availability
              InstanceName
              (fun _ i => match InstancePostgres i with
                          | Some pg => negb (Obsolete i) && negb (Up pg)
                          | None => false
                          end)
              (postgresStep_availability (primaryLsnOf instances))
              instances (newPostgresReport th)) as (_ & _ & H).
  rewrite H. simpl. split.
  - intros [Hnil | (i & Hi & Hc & Hn)]; [now apply not_elem_of_nil in Hnil|].
    destruct (InstancePostgres i) as [pg|] eqn:E; [|discriminate].
    apply andb_true_iff in Hc as [Ho Hu]. apply negb_true_iff in Ho, Hu.
    exists i, pg. auto.
  - intros (i & pg & Hi & E & Ho & Hu & Hn). right. exists i.
    now rewrite E, Ho, Hu.
Qed.

(** X15. The latency check lists exactly the instances with Postgres data
    whose latest average latency exceeds the threshold; an obsolete instance
    is recorded like any other, since the audit skips obsolete instances only
    after this check. *)
Theorem latency_lists_slow_instances (instances : list AppInstance)
    (th : postgresThresholds) (x : string) :
  exists report,
    postgres FormatBytes FormatDuration true instances th = Some report
    /\ (x ∈ items (latency report) <->
        exists i pg, i ∈ instances /\ InstancePostgres i = Some pg
                     /\ (latencyThreshold th <? Last (Avg pg))%float = true
                     /\ InstanceName i = x).
Proof.
  unfold postgres. simpl. eexists. split; [reflexivity|].
  destruct (fold_AddItem_items (auditStep (primaryLsnOf instances)) latency
              InstanceName
              (fun t i => match InstancePostgres i with
                          | Some pg => (t <? Last (Avg pg))%float
                          | None => false
                          end)
              (postgresStep_latency (primaryLsnOf instances))
              instances (newPostgresReport th)) as (_ & _ & H).
  rewrite H. simpl. split.
  - intros [Hnil | (i & Hi & Hc & Hn)]; [now apply not_elem_of_nil in Hnil|].
    destruct (InstancePostgres i) as [pg|] eqn:E; [|discriminate].
    exists i, pg. auto.
  - intros (i & pg & Hi & E & Hc & Hn). right. exists i. now rewrite E.
Qed.


(** X17. The errors check counts, over the instances with Postgres data
    that are not obsolete, the truncated totals of their error and critical
    log messages, leaving out undefined totals; it records no item. *)
Theorem errors_counts_log_messages (instances : list AppInstance)
    (th : postgresThresholds) :
  exists report,
    postgres FormatBytes FormatDuration true instances th = Some report
    /\ count (errors report) = foldr Z.add 0 (errorsCounted <$> instances)
    /\ items (errors report) = []
    /\ Threshold (errors report) = errorsThreshold th.
Proof.
  unfold postgres. simpl. eexists. split; [reflexivity|].
  assert (forall l r,
            count (errors (fold_left (auditStep (primaryLsnOf instances)) l r))
            = count (errors r) + foldr Z.add 0 (errorsCounted <$> l)
            /\ items (errors (fold_left (auditStep (primaryLsnOf instances)) l r))
               = items (errors r)
            /\ Threshold (errors (fold_left (auditStep (primaryLsnOf instances)) l r))
               = Threshold (errors r)) as H.
  { induction l as [|i l IH]; intros r;
      [simpl; repeat split; try reflexivity; lia|].
    rewrite fmap_cons. cbn [fold_left foldr].
    destruct (IH (auditStep (primaryLsnOf instances) r i)) as (Hc & Hi & Ht).
    rewrite Hc, Hi, Ht, postgresStep_errors.
    generalize (foldr Z.add 0 (errorsCounted <$> l)). intros rest.
    unfold errorsCounted.
    destruct (InstancePostgres i) as [pg|];
      [|repeat split; try reflexivity; lia].
    destruct (Obsolete i); [repeat split; try reflexivity; lia|]. simpl.
    destruct (is_nan _); simpl; repeat split; try reflexivity; lia. }
  destruct (H instances (newPostgresReport th)) as (Hc & Hi & Ht).
  rewrite Hc, Hi, Ht. simpl. auto.
Qed.

(** X18. The replication-lag column of the instance table has one cell per
    instance with Postgres data that is not obsolete, in the order of the
    instances. *)
Theorem lag_cells_follow_instances (instances : list AppInstance)
    (th : postgresThresholds) :
  exists report,
    postgres FormatBytes FormatDuration true instances th = Some report
    /\ List.map fst (lagCells report) =
       InstanceName <$>
         List.filter (fun i => match InstancePostgres i with
                               | Some _ => negb (Obsolete i)
                               | None => false
                               end) instances.
Proof.
  unfold postgres. simpl. eexists. split; [reflexivity|].
  assert (forall l r,
            List.map fst (lagCells (fold_left (auditStep (primaryLsnOf instances)) l r))
            = (List.map fst (lagCells r) ++
               (InstanceName <$>
                  List.filter (fun i => match InstancePostgres i with
                                        | Some _ => negb (Obsolete i)
                                        | None => false
                                        end) l))%list) as H.
  { induction l as [|i l IH]; intros r; simpl; [now rewrite app_nil_r|].
    rewrite IH, postgresStep_lagCells, <- app_assoc. f_equal.
    destruct (InstancePostgres i) as [pg|]; [|reflexivity].
    now destruct (Obsolete i). }
  now rewrite H.
Qed.

End PostgresAudit.

(** ** The further properties on sample inputs *)

Lemma deployment_rows_newest_first_witness :
  exists st,
    deployments duration_example 600
      (List.map Deployment statuses_example) statuses_example 0%float 1000 = Some st
    /\ List.map (fun row => DeploymentName (fst row)) (rows st) = ["v4"; "v3"; "v2"; "v1"].
Proof.
  destruct (deployment_rows_newest_first duration_example 600
              (List.map Deployment statuses_example) statuses_example
              0%float 1000 ltac:(discriminate)) as (st & Hst & Hrows & _).
  exists st. split; [exact Hst|].
  rewrite <- (List.map_map fst DeploymentName), Hrows. reflexivity.
Defined.

Lemma deployments_write_only_the_value_witness :
  items (deploymentStatusCheck
           (deploymentsLoop duration_example 600 1000 statuses_example 4
              {| deploymentStatusCheck := CreateCheck 0; rows := [] |})) = [].
Proof.
  exact (proj1 (proj2 (deployments_write_only_the_value duration_example 600
                         (List.map Deployment statuses_example) statuses_example
                         0%float 1000 _ eq_refl))).
Defined.

Lemma availability_lists_down_instances_witness :
  exists report,
    postgres bytes_example duration_example true app_example thresholds_example
      = Some report
    /\ "pg-1" ∈ items (availability report).
Proof.
  destruct (availability_lists_down_instances bytes_example duration_example
              app_example thresholds_example "pg-1") as (report & Hr & H).
  exists report. split; [exact Hr|]. apply H.
  exists {| InstanceName := "pg-1";
            InstancePostgres := Some (postgres_info None lsn_replay_behind false);
            LogMessagesByLevel := no_logs; Obsolete := false;
            RoleLast := ClusterRoleReplica |},
         (postgres_info None lsn_replay_behind false).
  split; [|auto]. apply list_elem_of_In. simpl. tauto.
Defined.


Lemma errorsByPattern_only_errors_witness :
  is_Some (errorsByPattern matcher_example patterns_example
             !! "ERROR: deadlock detected").
Proof.
  apply (proj1 (proj2 (errorsByPattern_only_errors matcher_example patterns_example))
           pattern_deadlock).
  - apply list_elem_of_In. simpl. tauto.
  - now left.
Defined.
